(** * Random student picker: detection, selection and capture pipeline

    A shallow embedding of [src/main.js].  The page keeps a handful of
    module-level variables ([minScore], [facingMode], [currentPeople],
    [selectedIdx], [selectUntil]) next to the DOM elements it drives; here
    they are the fields of one [state] record that every function takes and
    returns.  What the platform supplies (the detector's predictions, the
    clock, the random source, the video frame, text metrics) enters as an
    argument or as a field of the element it belongs to. *)

From Stdlib Require Import ZArith QArith Qround List String Bool Lia DecimalString.
From Stdlib Require Import Qabs Qpower Qreduction Lqa Qfield.
From Stdlib Require PrimFloat FloatOps.
Import ListNotations.

(** ** JavaScript values

    A number is modelled by the exact value of a finite double, a rational;
    [NaN] and the infinities are outside the model.  Comparisons, [floor]
    and [max] are exact on doubles.  Sums, differences, products and
    quotients are rounded to the nearest double, ties to the even mantissa,
    as IEEE 754 binary64 does; only overflow is left out (a result beyond
    the largest double stays finite here). *)
Module JS.

Definition number := Q.

(** [x < y] and [x >= y] on numbers. *)
Definition ltb (x y : number) : bool := negb (Qle_bool y x).
Definition geb (x y : number) : bool := Qle_bool y x.

(** [Math.max] on numbers. *)
Definition max (x y : number) : number := if Qle_bool x y then y else x.

(** 2 to the power [e]. *)
Definition pow2 (e : Z) : Q := 2 ^ e.

(** The integer [e] with [2^e <= q < 2^(e+1)], for a positive [q]. *)
Definition ilog2 (q : Q) : Z :=
  let e0 := (Z.log2 (Qnum q) - Z.log2 (Zpos (Qden q)))%Z in
  if Qle_bool (pow2 e0) q then e0 else (e0 - 1)%Z.

(** The nearest integer, the even one of two equally near. *)
Definition rne (x : Q) : Z :=
  let f := Qfloor x in
  let r := x - inject_Z f in
  if Qle_bool r (1 # 2)
  then if Qle_bool (1 # 2) r then (if Z.even f then f else f + 1)%Z else f
  else (f + 1)%Z.

(** The spacing of the doubles around [q]: 53 bits of mantissa, and
    [2^-1074] for the subnormal numbers. *)
Definition quantum (q : Q) : Q := pow2 (Z.max (ilog2 (Qabs q) - 52) (-1074)).

(** The double nearest to the real [q]. *)
Definition round64 (q : Q) : number :=
  let q := Qred q in
  if Qeq_bool q 0 then 0
  else inject_Z (rne (q / quantum q)) * quantum q.

(** The values a double can hold: a mantissa below [2^53] in size times a
    power of two not below [2^-1074]. *)
Definition representable (d : Q) : Prop :=
  exists m e : Z,
    (Z.abs m < 2 ^ 53)%Z /\ (-1074 <= e)%Z /\ d == inject_Z m * pow2 e.

(** [x + y], [x - y], [x * y] and [x / y] (for a divisor other than 0). *)
Definition add (x y : number) : number := round64 (x + y).
Definition sub (x y : number) : number := round64 (x - y).
Definition mul (x y : number) : number := round64 (x * y).
Definition div (x y : number) : number := round64 (x / y).

(** [arr[i]]: [undefined] (here [None]) outside the array. *)
Definition index {A : Type} (arr : list A) (i : Z) : option A :=
  if (i <? 0)%Z then None else nth_error arr (Z.to_nat i).

(** [arr.forEach((p, i) => ...)], collecting what each call emits. *)
Fixpoint forEach_from {A B : Type} (i : Z) (f : A -> Z -> list B)
    (arr : list A) : list B :=
  match arr with
  | [] => []
  | p :: rest => f p i ++ forEach_from (i + 1)%Z f rest
  end.

Definition forEach {A B : Type} (f : A -> Z -> list B) (arr : list A) :=
  forEach_from 0%Z f arr.

(** Decimal digits of a non-negative integer. *)
Definition digits (n : Z) : string :=
  NilZero.string_of_uint (N.to_uint (Z.to_N n)).

(** For a double [x] of at least 1e21, the pairs [(n, s)] with [s] of [k]
    decimal digits such that [s * 10^(n-k)] rounds to [x]. *)
Definition shortest_candidates (x : number) (k : Z) : list (Z * Z) :=
  let len := Z.of_nat (String.length (digits (Qfloor x))) in
  flat_map
    (fun n =>
       let p := (10 ^ (n - k))%Z in
       let s0 := Qfloor (x / inject_Z p) in
       filter
         (fun ns =>
            let s := snd ns in
            (10 ^ (k - 1) <=? s)%Z && (s <? 10 ^ k)%Z
            && Qeq_bool (round64 (inject_Z (s * p))) x)
         [(n, s0); (n, (s0 + 1)%Z)])
    [len; (len + 1)%Z].

Definition closer (x : number) (k : Z) (a b : Z * Z) : Z * Z :=
  let value ns := inject_Z (snd ns * 10 ^ (fst ns - k)) in
  if Qle_bool (Qabs (value a - x)) (Qabs (value b - x)) then a else b.

(** The fewest digits that still identify [x], the nearest candidate when
    several do: [(n, k, s)]. *)
Fixpoint shortest_from (fuel : nat) (x : number) (k : Z)
    : option (Z * Z * Z) :=
  match fuel with
  | O => None
  | S fuel =>
      match shortest_candidates x k with
      | [] => shortest_from fuel x (k + 1)
      | c :: cs =>
          let best := fold_left (closer x k) cs c in
          Some (fst best, k, snd best)
      end
  end.

(** [String(x)] for a double of at least 1e21: exponent notation with the
    shortest mantissa, as in "1.1805916207174113e+21".  Seventeen digits
    always identify a double. *)
Definition toString_large (x : number) : string :=
  match shortest_from 17 x 1 with
  | None => digits (Qfloor x)
  | Some (n, k, s) =>
      let d := digits s in
      let mantissa :=
        match d with
        | String c EmptyString => d
        | String c rest => String c (String.append "." rest)
        | EmptyString => d
        end in
      String.append mantissa (String.append "e+" (digits (n - 1)))
  end.

(** [x.toFixed(0)] for [x >= 0]: below 1e21 the nearest integer, the larger
    one on a tie; from 1e21 on what [String(x)] gives. *)
Definition toFixed0_abs (x : number) : string :=
  if Qle_bool (inject_Z (10 ^ 21)) x then toString_large x
  else digits (Qfloor (x + (1 # 2))).

(** [x.toFixed(0)], the sign kept apart. *)
Definition toFixed0 (x : number) : string :=
  if ltb x 0 then String.append "-" (toFixed0_abs (- x)) else toFixed0_abs x.

End JS.

(** ** The proof assistant's own doubles

    Rocq's primitive floats are IEEE 754 binary64 numbers, the numbers of
    JavaScript.  They serve to check [JS.round64] on samples. *)
Module Binary64.

(** The exact value of a finite float. *)
Definition value (f : PrimFloat.float) : option Q :=
  match FloatOps.Prim2SF f with
  | SpecFloat.S754_zero _ => Some 0
  | SpecFloat.S754_finite s m e =>
      Some ((if s then -1 else 1) * inject_Z (Zpos m) * JS.pow2 e)
  | _ => None
  end.

Definition of_Z (z : Z) : PrimFloat.float :=
  PrimFloat.of_uint63 (Uint63Axioms.of_Z z).

Definition agree (o : option Q) (q : Q) : bool :=
  match o with Some r => Qeq_bool r q | None => false end.

(** The quotients [a/b] and [c/d] of integers below [2^53], and their sum,
    difference, product and quotient, computed both ways. *)
Definition agree_on (a b c d : Z) : bool :=
  let x := PrimFloat.div (of_Z a) (of_Z b) in
  let y := PrimFloat.div (of_Z c) (of_Z d) in
  let qx := JS.div (inject_Z a) (inject_Z b) in
  let qy := JS.div (inject_Z c) (inject_Z d) in
  agree (value x) qx && agree (value y) qy
  && agree (value (PrimFloat.mul x y)) (JS.mul qx qy)
  && agree (value (PrimFloat.add x y)) (JS.add qx qy)
  && agree (value (PrimFloat.sub x y)) (JS.sub qx qy)
  && agree (value (PrimFloat.div x y)) (JS.div qx qy).

Definition samples : list (Z * Z * Z * Z) :=
  [ (1, 3, 2, 3); (10, 3, 7, 1); (10002, 10, 3500, 1); (15, 1000, 100, 1);
    (1, 10, 2, 10); (6004799503160661, 9007199254740992, 3, 1);
    (1366, 1280, 101, 1); (768, 720, 33, 7); (9007199254740991, 1, 1, 2);
    (9007199254740991, 2, 1, 4); (1, 9007199254740991, 1, 3);
    (123456789, 1000, 987654321, 1000000); (5, 2, 1, 1); (3, 2, 1, 1);
    (1, 1, 1, 9007199254740992); (4503599627370497, 4503599627370496, 1, 2);
    (999999999, 7, 13, 999999937); (2, 3, 4500, 1);
    (1, 1125899906842624, 1, 1125899906842625); (7, 1, 1, 49) ]%Z.

(** The smallest subnormal number, [2^-1074]. *)
Definition tiny : PrimFloat.float := FloatOps.Z.ldexp (of_Z 1) (-1074)%Z.

End Binary64.

(** ** The elements of the page *)

(** One RGBA pixel. *)
Record pixel := RGBA { red : N; green : N; blue : N; alpha : N }.

Definition transparent : pixel := RGBA 0 0 0 0.

(** The [<video>] element: intrinsic size of the stream (0 until metadata
    has loaded) and the current frame, column first. *)
Record video_el := {
  videoWidth : Z;
  videoHeight : Z;
  frame : Z -> Z -> pixel
}.

(** A canvas bitmap, addressed column first. *)
Record bitmap := {
  bm_width : Z;
  bm_height : Z;
  bm_at : Z -> Z -> pixel
}.

(** A 2D context over a bitmap.  The program only translates and mirrors,
    so the current transformation matrix stays diagonal: user point
    [(x, y)] lands on [(m_a * x + m_e, m_d * y + m_f)]. *)
Record context2d := {
  surface : bitmap;
  m_a : Z;
  m_d : Z;
  m_e : Z;
  m_f : Z
}.

(** What [toDataURL("image/png")] returns.  PNG is lossless, so the data URL
    is identified with the bitmap it encodes. *)
Inductive dataURL := PNG (b : bitmap).

Definition decoded (u : dataURL) : bitmap := let 'PNG b := u in b.

(** The overlay canvas is observed through the calls made on its context. *)
Inductive draw_call :=
| ClearRect (x y w h : JS.number)
| SetLineWidth (w : JS.number)
| SetStrokeStyle (c : string)
| SetFillStyle (c : string)
| StrokeRect (x y w h : JS.number)
| FillRect (x y w h : JS.number)
| SetFont (f : string)
| SetTextBaseline (b : string)
| FillText (t : string) (x y : JS.number)
| BeginPath.

(** The overlay [<canvas>] with its context's text metrics under the one
    font the program sets. *)
Record overlay_el := {
  width : Z;
  height : Z;
  measureText : string -> JS.number
}.

Record toast_el := { textContent : string; toast_show : bool }.

Record spotlight_el := {
  spotImg_src : option dataURL;
  spotCaption : string;
  spot_show : bool;
  aria_hidden : string
}.

(** ** Detections and the module state *)

Record detection := {
  class : string;
  score : JS.number;
  bbox : JS.number * JS.number * JS.number * JS.number
}.

Inductive facing := user | environment.

Definition facing_eqb (a b : facing) : bool :=
  match a, b with
  | user, user | environment, environment => true
  | _, _ => false
  end.

(** Where the click handler of the pick button resumes after an [await]. *)
Inductive pick_phase := AfterThree | AfterTwo | AfterOne.

(** Callbacks handed to [setTimeout] and [requestAnimationFrame]. *)
Inductive callback :=
| HideToast
| PickResume (k : pick_phase)
| Loop.

Record state := {
  running : bool;
  minScore : JS.number;
  facingMode : facing;
  currentPeople : list detection;
  selectedIdx : option Z;
  selectUntil : JS.number;
  video : video_el;
  canvas : overlay_el;
  toast : toast_el;
  spotlight : spotlight_el;
  timers : list (Z * callback);
  animationFrames : list callback
}.

Definition set_facingMode (v : facing) (s : state) : state :=
  Build_state (running s) (minScore s) v (currentPeople s) (selectedIdx s)
    (selectUntil s) (video s) (canvas s) (toast s) (spotlight s) (timers s)
    (animationFrames s).

Definition set_minScore (v : JS.number) (s : state) : state :=
  Build_state (running s) v (facingMode s) (currentPeople s) (selectedIdx s)
    (selectUntil s) (video s) (canvas s) (toast s) (spotlight s) (timers s)
    (animationFrames s).

Definition set_currentPeople (v : list detection) (s : state) : state :=
  Build_state (running s) (minScore s) (facingMode s) v (selectedIdx s)
    (selectUntil s) (video s) (canvas s) (toast s) (spotlight s) (timers s)
    (animationFrames s).

Definition set_selectedIdx (v : option Z) (s : state) : state :=
  Build_state (running s) (minScore s) (facingMode s) (currentPeople s) v
    (selectUntil s) (video s) (canvas s) (toast s) (spotlight s) (timers s)
    (animationFrames s).

Definition set_selectUntil (v : JS.number) (s : state) : state :=
  Build_state (running s) (minScore s) (facingMode s) (currentPeople s)
    (selectedIdx s) v (video s) (canvas s) (toast s) (spotlight s) (timers s)
    (animationFrames s).

Definition set_toast (v : toast_el) (s : state) : state :=
  Build_state (running s) (minScore s) (facingMode s) (currentPeople s)
    (selectedIdx s) (selectUntil s) (video s) (canvas s) v (spotlight s)
    (timers s) (animationFrames s).

Definition set_spotlight (v : spotlight_el) (s : state) : state :=
  Build_state (running s) (minScore s) (facingMode s) (currentPeople s)
    (selectedIdx s) (selectUntil s) (video s) (canvas s) (toast s) v
    (timers s) (animationFrames s).

Definition setTimeout (cb : callback) (ms : Z) (s : state) : state :=
  Build_state (running s) (minScore s) (facingMode s) (currentPeople s)
    (selectedIdx s) (selectUntil s) (video s) (canvas s) (toast s)
    (spotlight s) (timers s ++ [(ms, cb)]) (animationFrames s).

Definition requestAnimationFrame (cb : callback) (s : state) : state :=
  Build_state (running s) (minScore s) (facingMode s) (currentPeople s)
    (selectedIdx s) (selectUntil s) (video s) (canvas s) (toast s)
    (spotlight s) (timers s) (animationFrames s ++ [cb]).

(** ** [showToast] *)

Definition showToast (msg : string) (ms : Z) (s : state) : state :=
  setTimeout HideToast ms (set_toast {| textContent := msg; toast_show := true |} s).

(** The timer set by [showToast] firing: [toast.classList.remove("show")]. *)
Definition hideToast (s : state) : state :=
  set_toast {| textContent := textContent (toast s); toast_show := false |} s.

(** ** [draw] *)

(** The predicate handed to [preds.filter]. *)
Definition isPerson (minScore : JS.number) (p : detection) : bool :=
  String.eqb (class p) "person" && JS.geb (score p) minScore.

(** [selectedIdx === i && performance.now() < selectUntil].  The clock is
    read only when the index matches, hence at most once in a [draw]. *)
Definition isChosen (s : state) (now : JS.number) (i : Z) : bool :=
  match selectedIdx s with
  | Some k => (k =? i)%Z
  | None => false
  end && JS.ltb now (selectUntil s).

(** The body of the [forEach] callback, after [isChosen] is known. *)
Definition drawBox (measure : string -> JS.number) (scaleX scaleY : JS.number)
    (chosen : bool) (p : detection) : list draw_call :=
  let '(x, y, w, h) := bbox p in
  let rx := JS.mul x scaleX in
  let ry := JS.mul y scaleY in
  let rw := JS.mul w scaleX in
  let rh := JS.mul h scaleY in
  let label :=
    if chosen then "🎉 Selected!"%string
    else String.append "person "
           (String.append (JS.toFixed0 (JS.mul (score p) 100)) "%") in
  let padX := 6 in
  let padY := 4 in
  let textW := measure label in
  let boxW := JS.add textW (JS.mul padX 2) in
  let boxH := JS.add 22 (JS.mul padY 2) in
  let ly := JS.max (JS.sub ry boxH) 0 in
  [ SetLineWidth (if chosen then 4 else 2);
    SetStrokeStyle (if chosen then "#22c55e" else "#2563eb");
    SetFillStyle (if chosen then "rgba(34,197,94,0.15)" else "rgba(37,99,235,0.15)");
    StrokeRect rx ry rw rh;
    FillRect rx ry rw rh;
    SetFont "16px system-ui, -apple-system, Segoe UI, Roboto, Inter, Arial";
    SetTextBaseline "top";
    SetFillStyle "rgba(0,0,0,0.65)";
    FillRect rx ly boxW boxH;
    SetFillStyle "#fff";
    FillText label (JS.add rx padX) (JS.add ly padY) ]
  ++ (if chosen
      then [ BeginPath;
             SetLineWidth 6;
             SetStrokeStyle "rgba(34,197,94,0.7)";
             StrokeRect (JS.sub rx 4) (JS.sub ry 4) (JS.add rw 8) (JS.add rh 8) ]
      else []).

(** [a || b] on a dimension: [b] when [a] is 0. *)
Definition orDefault (a b : Z) : Z := if (a =? 0)%Z then b else a.

(** [cw / vw] and [ch / vh], the video size falling back to 1280 by 720. *)
Definition scaleX (s : state) : JS.number :=
  JS.div (inject_Z (width (canvas s)))
    (inject_Z (orDefault (videoWidth (video s)) 1280)).

Definition scaleY (s : state) : JS.number :=
  JS.div (inject_Z (height (canvas s)))
    (inject_Z (orDefault (videoHeight (video s)) 720)).

(** [draw(preds)]: the new state (only [currentPeople] changes) and the calls
    made on the overlay context.  [now] is what [performance.now()] answers
    during this call. *)
Definition draw (preds : list detection) (now : JS.number) (s : state)
    : state * list draw_call :=
  let s1 := set_currentPeople (filter (isPerson (minScore s)) preds) s in
  (s1,
   ClearRect 0 0 (inject_Z (width (canvas s))) (inject_Z (height (canvas s)))
   :: JS.forEach
        (fun p i =>
           drawBox (measureText (canvas s)) (scaleX s) (scaleY s)
             (isChosen s1 now i) p)
        (currentPeople s1)).

(** ** The offscreen canvas of [captureSelectedCrop] *)

Definition blank (w h : Z) : bitmap :=
  {| bm_width := w; bm_height := h; bm_at := fun _ _ => transparent |}.

(** [document.createElement("canvas")]: 300 by 150, transparent black. *)
Definition createCanvas : bitmap := blank 300 150.

(** Assigning a dimension clears the bitmap. *)
Definition set_width (w : Z) (c : bitmap) : bitmap := blank w (bm_height c).
Definition set_height (h : Z) (c : bitmap) : bitmap := blank (bm_width c) h.

Definition getContext (c : bitmap) : context2d :=
  {| surface := c; m_a := 1; m_d := 1; m_e := 0; m_f := 0 |}.

(** [translate] and [scale] multiply the current matrix on the right. *)
Definition translate (tx ty : Z) (c : context2d) : context2d :=
  {| surface := surface c; m_a := m_a c; m_d := m_d c;
     m_e := m_a c * tx + m_e c; m_f := m_d c * ty + m_f c |}.

Definition scale (kx ky : Z) (c : context2d) : context2d :=
  {| surface := surface c; m_a := m_a c * kx; m_d := m_d c * ky;
     m_e := m_e c; m_f := m_f c |}.

(** Writing one pixel; outside the bitmap nothing is drawn. *)
Definition plot (b : bitmap) (c r : Z) (v : pixel) : bitmap :=
  if ((0 <=? c) && (c <? bm_width b) && (0 <=? r) && (r <? bm_height b))%Z
  then {| bm_width := bm_width b; bm_height := bm_height b;
          bm_at := fun c' r' =>
            if ((c' =? c) && (r' =? r))%Z then v else bm_at b c' r' |}
  else b.

(** The device pixel covered by the unit square of user space whose corner
    is [x] (one axis): the smaller of the images of its two ends. *)
Definition device (a e x : Z) : Z := Z.min (a * x + e) (a * (x + 1) + e).

Definition range (n : Z) : list Z := map Z.of_nat (seq 0 (Z.to_nat n)).

Definition inside (img : video_el) (c r : Z) : bool :=
  ((0 <=? c) && (c <? videoWidth img) && (0 <=? r) && (r <? videoHeight img))%Z.

(** The pixel writes of [drawImage(img, sx, sy, sw, sh, dx, dy, dw, dh)], row
    by row.  With [dw = sw] and [dh = sh], the only way the program calls it,
    destination pixel [(k, l)] is source pixel [(sx + k, sy + l)]; other sizes
    pick the nearest source pixel, without the smoothing a browser applies.
    Source pixels outside the image are clipped away. *)
Definition drawImage_writes (ctx : context2d) (img : video_el)
    (sx sy sw sh dx dy dw dh : Z) : list (Z * Z * pixel) :=
  flat_map
    (fun l =>
       flat_map
         (fun k =>
            let c := (sx + k * sw / dw)%Z in
            let r := (sy + l * sh / dh)%Z in
            if inside img c r
            then [ (device (m_a ctx) (m_e ctx) (dx + k),
                    device (m_d ctx) (m_f ctx) (dy + l),
                    frame img c r) ]
            else [])
         (range dw))
    (range dh).

Definition paint (b : bitmap) (w : Z * Z * pixel) : bitmap :=
  let '(c, r, v) := w in plot b c r v.

Definition drawImage (ctx : context2d) (img : video_el)
    (sx sy sw sh dx dy dw dh : Z) : context2d :=
  {| surface :=
       fold_left paint (drawImage_writes ctx img sx sy sw sh dx dy dw dh)
         (surface ctx);
     m_a := m_a ctx; m_d := m_d ctx; m_e := m_e ctx; m_f := m_f ctx |}.

Definition toDataURL (c : bitmap) : dataURL := PNG c.

(** ** [captureSelectedCrop] *)

Definition captureSelectedCrop (det : detection) (s : state) : option dataURL :=
  let '(x, y, w, h) := bbox det in
  let vw := videoWidth (video s) in
  let vh := videoHeight (video s) in
  if ((vw =? 0) || (vh =? 0))%Z then None
  else
    let sx := Z.max 0 (Qfloor x) in
    let sy := Z.max 0 (Qfloor y) in
    let sw := Z.min (vw - sx) (Qfloor w) in
    let sh := Z.min (vh - sy) (Qfloor h) in
    if ((sw <=? 1) || (sh <=? 1))%Z then None
    else
      let off := set_height sh (set_width sw createCanvas) in
      let octx := getContext off in
      let mirrored := facing_eqb (facingMode s) user in
      let octx :=
        if mirrored
        then drawImage (scale (-1) 1 (translate sw 0 octx)) (video s)
               sx sy sw sh 0 0 sw sh
        else drawImage octx (video s) sx sy sw sh 0 0 sw sh in
      Some (toDataURL (surface octx)).

(** ** The spotlight modal *)

Definition showSpotlight (dataUrl : option dataURL) (caption : string)
    (s : state) : state :=
  match dataUrl with
  | None => s
  | Some u =>
      set_spotlight
        {| spotImg_src := Some u; spotCaption := caption;
           spot_show := true; aria_hidden := "false" |} s
  end.

Definition hideSpotlight (s : state) : state :=
  set_spotlight
    {| spotImg_src := None; spotCaption := spotCaption (spotlight s);
       spot_show := false; aria_hidden := "true" |} s.

(** ** The refresh loop

    One turn of [loop], [preds] being what [model.detect(video, 50)]
    resolved to.  The script never assigns [running] after initialising it,
    so the test made before the [await] reads the same on the state that the
    drawing sees afterwards. *)
Definition loop (preds : list detection) (now : JS.number) (s : state)
    : state * list draw_call :=
  if negb (running s) then (s, [])
  else
    let '(s1, calls) := draw preds now s in
    (requestAnimationFrame Loop s1, calls).

(** ** The controls *)

(** How a handler ends: it returns, or an exception escapes it. *)
Inductive completion :=
| Returned (s : state)
| Thrown (s : state).

Definition final (c : completion) : state :=
  match c with Returned s | Thrown s => s end.

(** The click on the flip button, up to [await setupCamera()]; the stream
    that call installs is the platform's. *)
Definition flipBtn_click (s : state) : state :=
  let s1 :=
    set_facingMode
      (if facing_eqb (facingMode s) user then environment else user) s in
  showToast
    (String.append "Switching camera: "
       (if facing_eqb (facingMode s1) user then "Front" else "Rear"))
    1500 s1.

Definition confSlider_input (value : JS.number) (s : state) : state :=
  set_minScore value s.

(** [Math.floor(Math.random() * currentPeople.length)]. *)
Definition randomIndex (random : JS.number) (people : list detection) : Z :=
  Qfloor (JS.mul random (inject_Z (Z.of_nat (List.length people)))).

(** The click on the pick button, up to its first [await]. *)
Definition pickBtn_click (s : state) : state :=
  if Nat.eqb (List.length (currentPeople s)) 0
  then
    set_selectedIdx None
      (showToast "No students detected. Adjust camera/angle." 2000 s)
  else setTimeout (PickResume AfterThree) 400 (showToast "Picking in 3…" 1500 s).

Definition pick_after_three (s : state) : state :=
  setTimeout (PickResume AfterTwo) 400 (showToast "2…" 1500 s).

Definition pick_after_two (s : state) : state :=
  setTimeout (PickResume AfterOne) 400 (showToast "1…" 1500 s).

(** The rest of the handler, after the countdown.  [currentPeople] is read
    again here; [chosen] is [undefined] when the index misses the list, and
    reading its [bbox] then throws. *)
Definition pick_select (random now : JS.number) (s : state) : completion :=
  let i := randomIndex random (currentPeople s) in
  let s1 := set_selectedIdx (Some i) s in
  let s2 := set_selectUntil (JS.add now 3500) s1 in
  let s3 := showToast "🎉 Selected!" 1000 s2 in
  match JS.index (currentPeople s3) i with
  | None => Thrown s3
  | Some chosen =>
      Returned
        (showSpotlight (captureSelectedCrop chosen s3)
           "Ready to answer the next question!" s3)
  end.

(** Running a callback of the timer or frame queue. *)
Definition run_callback (cb : callback) (preds : list detection)
    (random now : JS.number) (s : state) : completion :=
  match cb with
  | HideToast => Returned (hideToast s)
  | PickResume AfterThree => Returned (pick_after_three s)
  | PickResume AfterTwo => Returned (pick_after_two s)
  | PickResume AfterOne => pick_select random now s
  | Loop => Returned (fst (loop preds now s))
  end.

(** Several turns of the refresh loop in a row, each with the predictions and
    the clock reading of its frame; the calls of every turn are kept. *)
Fixpoint run_frames (frames : list (list detection * JS.number)) (s : state)
    : state * list (list draw_call) :=
  match frames with
  | [] => (s, [])
  | (preds, now) :: rest =>
      let '(s1, calls) := loop preds now s in
      let '(s2, later) := run_frames rest s1 in
      (s2, calls :: later)
  end.

(** ** Notions the properties are stated with *)

(** [subseq l1 l2]: [l1] is [l2] with some elements left out, order kept. *)
Inductive subseq {A : Type} : list A -> list A -> Prop :=
| subseq_nil : subseq [] []
| subseq_skip x l1 l2 : subseq l1 l2 -> subseq l1 (x :: l2)
| subseq_keep x l1 l2 : subseq l1 l2 -> subseq (x :: l1) (x :: l2).

(** A detection of the target class scoring at least [t]. *)
Definition is_candidate (t : JS.number) (d : detection) : Prop :=
  class d = "person"%string /\ t <= score d.

(** The calls [draw] makes only for the selected box: the green stroke and
    fill, the "Selected" label and the outer glow. *)
Definition is_highlight (c : draw_call) : bool :=
  match c with
  | SetStrokeStyle k =>
      String.eqb k "#22c55e" || String.eqb k "rgba(34,197,94,0.7)"
  | SetFillStyle k => String.eqb k "rgba(34,197,94,0.15)"
  | FillText t _ _ => String.eqb t "🎉 Selected!"
  | BeginPath => true
  | _ => false
  end.

(** The clamped box in the words of the specification:
    startX = max(0, floor(x)), startY = max(0, floor(y)),
    width = min(frameWidth - startX, floor(w)),
    height = min(frameHeight - startY, floor(h)). *)
Record crop := { startX : Z; startY : Z; cropWidth : Z; cropHeight : Z }.

Definition clampBox (frameWidth frameHeight : Z)
    (box : JS.number * JS.number * JS.number * JS.number) : crop :=
  let '(x, y, w, h) := box in
  let startX := Z.max 0 (Qfloor x) in
  let startY := Z.max 0 (Qfloor y) in
  {| startX := startX;
     startY := startY;
     cropWidth := Z.min (frameWidth - startX) (Qfloor w);
     cropHeight := Z.min (frameHeight - startY) (Qfloor h) |}.

(** The frame's dimensions are not known yet. *)
Definition dims_unknown (v : video_el) : Prop :=
  videoWidth v = 0%Z \/ videoHeight v = 0%Z.

(** A box that shares no point with the frame: it ends left of or above the
    frame, or starts at or beyond its right or bottom edge. *)
Definition fully_outside (frameWidth frameHeight : Z)
    (box : JS.number * JS.number * JS.number * JS.number) : Prop :=
  let '(x, y, w, h) := box in
  x + w <= 0 \/ y + h <= 0 \/
  inject_Z frameWidth <= x \/ inject_Z frameHeight <= y.

(** A box that starts at or beyond the right or the bottom edge. *)
Definition beyond_far_edge (frameWidth frameHeight : Z)
    (box : JS.number * JS.number * JS.number * JS.number) : Prop :=
  let '(x, y, w, h) := box in
  inject_Z frameWidth <= x \/ inject_Z frameHeight <= y.

(** A box that lies inside the frame. *)
Definition within_frame (frameWidth frameHeight : Z)
    (box : JS.number * JS.number * JS.number * JS.number) : Prop :=
  let '(x, y, w, h) := box in
  0 <= x /\ 0 <= y /\
  x + w <= inject_Z frameWidth /\ y + h <= inject_Z frameHeight.

(** The source column that lands on column [c] of a crop [cropW] wide. *)
Definition source_column (mode : facing) (cropW c : Z) : Z :=
  match mode with
  | user => (cropW - 1 - c)%Z
  | environment => c
  end.

(** ** A small scene to run the definitions on *)
Module Scene.

(** An 8 by 6 frame whose pixel records its own column and row. *)
Definition camera : video_el :=
  {| videoWidth := 8; videoHeight := 6;
     frame := fun c r => RGBA (Z.to_N c) (Z.to_N r) 0 255 |}.

Definition overlay : overlay_el :=
  {| width := 16; height := 12;
     measureText := fun t => inject_Z (Z.of_nat (String.length t)) * 8 |}.

Definition alice : detection :=
  {| class := "person"; score := 9 # 10; bbox := (1, 1, 3, 4) |}.
Definition rex : detection :=
  {| class := "dog"; score := 95 # 100; bbox := (4, 2, 3, 3) |}.
Definition bob : detection :=
  {| class := "person"; score := 3 # 10; bbox := (5, 0, 2, 5) |}.

Definition preds : list detection := [alice; rex; bob].

(** A box left of the frame, one past its right edge, one of a single
    pixel and one of two by two. *)
Definition left_of_frame : detection :=
  {| class := "person"; score := 9 # 10; bbox := (-5, 0, 3, 3) |}.
Definition right_of_frame : detection :=
  {| class := "person"; score := 9 # 10; bbox := (18, 1, 3, 3) |}.
Definition one_pixel : detection :=
  {| class := "person"; score := 9 # 10; bbox := (2, 2, 1, 1) |}.
Definition two_by_two : detection :=
  {| class := "person"; score := 9 # 10; bbox := (2, 2, 2, 2) |}.

(** The module variables as the script initialises them, the slider at
    0.5, the stream ready. *)
Definition boot : state :=
  {| running := true;
     minScore := 1 # 2;
     facingMode := user;
     currentPeople := [];
     selectedIdx := None;
     selectUntil := 0;
     video := camera;
     canvas := overlay;
     toast := {| textContent := ""; toast_show := false |};
     spotlight :=
       {| spotImg_src := None; spotCaption := "";
          spot_show := false; aria_hidden := "true" |};
     timers := [];
     animationFrames := [] |}.

(** After one frame: alice is the only candidate. *)
Definition watching : state := fst (loop preds 1000 boot).

(** After a pick at time 2000 with the random source at 0.7. *)
Definition picked : state := final (pick_select (7 # 10) 2000 watching).

(** The scene emptied after the pick: the stored index is stale. *)
Definition emptied : state := fst (loop [rex] 2500 picked).

End Scene.

(** ** A scene with three candidates *)
Module Crowd.

Definition carol : detection :=
  {| class := "person"; score := 6 # 10; bbox := (0, 2, 4, 3) |}.

Definition preds : list detection := [Scene.alice; Scene.rex; Scene.bob; carol].

(** The doubles 0.6666666666666666 (two thirds rounded down), 1000.2 and
    4500.2. *)
Definition two_thirds : JS.number := 6004799503160661 # 9007199254740992.
Definition t_pick : JS.number := JS.round64 (10002 # 10).
Definition t_late : JS.number := JS.round64 (45002 # 10).

(** A detection scoring the double 0.015, whose hundredfold rounds to
    1.5. *)
Definition faint : detection :=
  {| class := "person"; score := JS.round64 (15 # 1000); bbox := (1, 1, 3, 4) |}.

(** The slider at 0.25: alice, bob and carol are candidates. *)
Definition watching : state :=
  fst (loop preds 1000 (confSlider_input (1 # 4) Scene.boot)).

(** A pick at 1000.2 with the random source at 0.6666666666666666. *)
Definition picked : state := final (pick_select two_thirds t_pick watching).

End Crowd.

(** ** What the overlay shows for one box *)

(** The label above a box whose top-left corner is drawn at [(rx, ry)]: a
    dark background as wide as the text plus 12 and 30 high, kept on the
    canvas, and the text in white 6 right and 4 below its corner. *)
Definition label_calls (measure : string -> JS.number) (rx ry : JS.number)
    (label : string) : list draw_call :=
  let ly := JS.max (JS.sub ry (JS.add 22 (JS.mul 4 2))) 0 in
  [ SetFont "16px system-ui, -apple-system, Segoe UI, Roboto, Inter, Arial";
    SetTextBaseline "top";
    SetFillStyle "rgba(0,0,0,0.65)";
    FillRect rx ly (JS.add (measure label) (JS.mul 6 2)) (JS.add 22 (JS.mul 4 2));
    SetFillStyle "#fff";
    FillText label (JS.add rx 6) (JS.add ly 4) ].

(** A candidate drawn normally: blue outline 2 wide, faint blue fill, and
    the label "person N%". *)
Definition plain_box (measure : string -> JS.number) (sX sY : JS.number)
    (p : detection) : list draw_call :=
  let '(x, y, w, h) := bbox p in
  let rx := JS.mul x sX in
  let ry := JS.mul y sY in
  let rw := JS.mul w sX in
  let rh := JS.mul h sY in
  [ SetLineWidth 2;
    SetStrokeStyle "#2563eb";
    SetFillStyle "rgba(37,99,235,0.15)";
    StrokeRect rx ry rw rh;
    FillRect rx ry rw rh ]
  ++ label_calls measure rx ry
       (String.append "person "
          (String.append (JS.toFixed0 (JS.mul (score p) 100)) "%")).

(** A candidate drawn as the selected one: green outline 4 wide, faint
    green fill, the label "Selected!", and a glow 6 wide 4 outside the box. *)
Definition selected_box (measure : string -> JS.number) (sX sY : JS.number)
    (p : detection) : list draw_call :=
  let '(x, y, w, h) := bbox p in
  let rx := JS.mul x sX in
  let ry := JS.mul y sY in
  let rw := JS.mul w sX in
  let rh := JS.mul h sY in
  [ SetLineWidth 4;
    SetStrokeStyle "#22c55e";
    SetFillStyle "rgba(34,197,94,0.15)";
    StrokeRect rx ry rw rh;
    FillRect rx ry rw rh ]
  ++ label_calls measure rx ry "🎉 Selected!"
  ++ [ BeginPath;
       SetLineWidth 6;
       SetStrokeStyle "rgba(34,197,94,0.7)";
       StrokeRect (JS.sub rx 4) (JS.sub ry 4) (JS.add rw 8) (JS.add rh 8) ].

(** The first call of all: the whole canvas is cleared. *)
Definition clear_all (s : state) : draw_call :=
  ClearRect 0 0 (inject_Z (width (canvas s))) (inject_Z (height (canvas s))).

(** ** Reading the overlay's calls *)

Definition is_label (c : draw_call) : bool :=
  match c with FillText _ _ _ => true | _ => false end.

Definition has_label (label : string) (c : draw_call) : bool :=
  match c with FillText t _ _ => String.eqb t label | _ => false end.

(** A label whose text starts at least [padY] below the top edge. *)
Definition label_below_top (c : draw_call) : Prop :=
  match c with FillText _ _ y => 4 <= y | _ => True end.

(** What a turn of the refresh loop leaves alone: everything but the
    candidate list and the frame queue. *)
Definition untouched_by_loop (s s' : state) : Prop :=
  running s' = running s /\ minScore s' = minScore s /\
  facingMode s' = facingMode s /\ selectedIdx s' = selectedIdx s /\
  selectUntil s' = selectUntil s /\ video s' = video s /\
  canvas s' = canvas s /\ toast s' = toast s /\
  spotlight s' = spotlight s /\ timers s' = timers s.

(** ** The camera stream

    Streams are told apart by a number.  [srcObject] is the stream the video
    element shows; [stopped] lists the streams whose tracks were stopped. *)
Record page := {
  vars : state;
  srcObject : option nat;
  stopped : list nat
}.

(** How [getUserMedia] settles. *)
Inductive acquisition := Stream (id : nat) | Refused (message : string).

(** How an [async] handler over the page ends. *)
Inductive outcome :=
| Resolved (p : page)
| Failed (p : page).

Definition page_of (o : outcome) : page :=
  match o with Resolved p | Failed p => p end.

Definition set_video (v : video_el) (s : state) : state :=
  Build_state (running s) (minScore s) (facingMode s) (currentPeople s)
    (selectedIdx s) (selectUntil s) v (canvas s) (toast s) (spotlight s)
    (timers s) (animationFrames s).

(** [fitCanvas()], the window being [innerWidth] by [innerHeight]. *)
Definition fitCanvas (innerWidth innerHeight : Z) (s : state) : state :=
  Build_state (running s) (minScore s) (facingMode s) (currentPeople s)
    (selectedIdx s) (selectUntil s) (video s)
    {| width := innerWidth; height := innerHeight;
       measureText := measureText (canvas s) |}
    (toast s) (spotlight s) (timers s) (animationFrames s).

(** [setupCamera()].  The stream is asked for first; only when it has come
    are the tracks of the stream shown so far stopped and the new stream
    shown.  [metadata] is the video element once the new stream's metadata
    has loaded, [innerWidth] and [innerHeight] the window when the frame
    callback fits the canvas. *)
Definition setupCamera (acquired : acquisition) (metadata : video_el)
    (innerWidth innerHeight : Z) (p : page) : outcome :=
  match acquired with
  | Refused _ => Failed p
  | Stream id =>
      Resolved
        {| vars := fitCanvas innerWidth innerHeight (set_video metadata (vars p));
           srcObject := Some id;
           stopped :=
             match srcObject p with
             | Some old => old :: stopped p
             | None => stopped p
             end |}
  end.

(** The whole click on the flip button. *)
Definition flip (acquired : acquisition) (metadata : video_el)
    (innerWidth innerHeight : Z) (p : page) : outcome :=
  setupCamera acquired metadata innerWidth innerHeight
    {| vars := flipBtn_click (vars p);
       srcObject := srcObject p;
       stopped := stopped p |}.

(** Clicks on the flip button one after the other, each with what the
    platform answers. *)
Fixpoint flips (answers : list (acquisition * video_el * Z * Z)) (p : page)
    : page :=
  match answers with
  | [] => p
  | (acquired, metadata, iw, ih) :: rest =>
      flips rest (page_of (flip acquired metadata iw ih p))
  end.

(** The streams the platform handed out in [answers]. *)
Fixpoint handed_out (answers : list (acquisition * video_el * Z * Z))
    : list nat :=
  match answers with
  | [] => []
  | (Stream id, _, _, _) :: rest => id :: handed_out rest
  | (Refused _, _, _, _) :: rest => handed_out rest
  end.

(** Of the streams in [known], the one shown is live and all the others
    are stopped. *)
Definition streams_accounted (known : list nat) (p : page) : Prop :=
  (forall id, In id known <-> srcObject p = Some id \/ In id (stopped p)) /\
  (forall id, srcObject p = Some id -> ~ In id (stopped p)).

(** ** Start-up

    [main] awaits the platform five times and warms the backend up once;
    each of these either goes through or fails with an error whose
    [message] the [catch] reads.  A promise that never settles is not
    modelled. *)
Inductive settled := Fulfilled | Rejected (message : string).

Record platform := {
  getUserMedia : settled;
  setBackend_webgl : settled;
  setBackend_cpu : settled;
  tf_ready : settled;
  cocoSsd_load : settled;
  warm_up : settled
}.

(** [p.catch(() => q)]. *)
Definition catch_with (p q : settled) : settled :=
  match p with Fulfilled => Fulfilled | Rejected _ => q end.

(** What [main] leaves behind: the successive texts of the status element,
    whether [model] was assigned, whether [loop()] was called. *)
Record startup := {
  status_log : list string;
  model_loaded : bool;
  loop_called : bool
}.

Definition statusEl (b : startup) : string := last (status_log b) ""%string.

Definition caught (log : list string) (loaded : bool) (message : string)
    : startup :=
  {| status_log := log ++ [String.append "Error: " message];
     model_loaded := loaded;
     loop_called := false |}.

Definition main (env : platform) : startup :=
  let log := ["Starting camera…"%string] in
  match getUserMedia env with
  | Rejected m => caught log false m
  | Fulfilled =>
  let log := log ++ ["Initializing TensorFlow.js…"%string] in
  match catch_with (setBackend_webgl env) (setBackend_cpu env) with
  | Rejected m => caught log false m
  | Fulfilled =>
  match tf_ready env with
  | Rejected m => caught log false m
  | Fulfilled =>
  let log := log ++ ["Loading detector…"%string] in
  match cocoSsd_load env with
  | Rejected m => caught log false m
  | Fulfilled =>
  let log := log ++ ["Warming up…"%string] in
  match warm_up env with
  | Rejected m => caught log true m
  | Fulfilled =>
      {| status_log := log ++ ["Detecting people…"%string];
         model_loaded := true;
         loop_called := true |}
  end end end end end.

(** The first step of [main] that fails, with its message; the WebGL
    backend failing counts only when the CPU backend fails too. *)
Definition first_failure (env : platform) : option string :=
  match getUserMedia env with
  | Rejected m => Some m
  | Fulfilled =>
  match setBackend_webgl env, setBackend_cpu env with
  | Rejected _, Rejected m => Some m
  | _, _ =>
  match tf_ready env with
  | Rejected m => Some m
  | Fulfilled =>
  match cocoSsd_load env with
  | Rejected m => Some m
  | Fulfilled =>
  match warm_up env with
  | Rejected m => Some m
  | Fulfilled => None
  end end end end end.

Module Startup.

(** A machine without WebGL, and one whose camera is refused. *)
Definition no_webgl : platform :=
  {| getUserMedia := Fulfilled;
     setBackend_webgl := Rejected "no webgl";
     setBackend_cpu := Fulfilled;
     tf_ready := Fulfilled;
     cocoSsd_load := Fulfilled;
     warm_up := Fulfilled |}.

Definition camera_refused : platform :=
  {| getUserMedia := Rejected "Permission denied";
     setBackend_webgl := Fulfilled;
     setBackend_cpu := Fulfilled;
     tf_ready := Fulfilled;
     cocoSsd_load := Fulfilled;
     warm_up := Fulfilled |}.

(** The page as it would be with [running] false. *)
Definition halted : state :=
  {| running := false;
     minScore := minScore Scene.boot;
     facingMode := facingMode Scene.boot;
     currentPeople := [Scene.alice];
     selectedIdx := None;
     selectUntil := 0;
     video := Scene.camera;
     canvas := Scene.overlay;
     toast := toast Scene.boot;
     spotlight := spotlight Scene.boot;
     timers := [];
     animationFrames := [] |}.

(** The page once [main] has set the front camera up as stream 1. *)
Definition front_page : page :=
  {| vars := Scene.watching; srcObject := Some 1%nat; stopped := [] |}.

End Startup.

Example startup_no_webgl :
  statusEl (main Startup.no_webgl) = "Detecting people…"%string
  /\ loop_called (main Startup.no_webgl) = true.
Proof. split; reflexivity. Qed.

Example startup_camera_refused :
  status_log (main Startup.camera_refused)
  = ["Starting camera…"; "Error: Permission denied"]%string.
Proof. reflexivity. Qed.

Example scene_filter : currentPeople Scene.watching = [Scene.alice].
Proof. reflexivity. Qed.

Example scene_pick :
  selectedIdx Scene.picked = Some 0%Z /\ selectUntil Scene.picked == 5500.
Proof. split; reflexivity. Qed.

Example crowd_candidates :
  currentPeople Crowd.watching = [Scene.alice; Scene.bob; Crowd.carol].
Proof. reflexivity. Qed.

(** 0.6666666666666666 * 3 rounds to 2, and 1000.2 + 3500 to 4500.2. *)
Example crowd_pick :
  selectedIdx Crowd.picked = Some 2%Z /\
  selectUntil Crowd.picked == Crowd.t_late /\
  Crowd.t_late < Crowd.t_pick + 3500.
Proof. split; [|split]; vm_compute; reflexivity. Qed.

(** On the samples [JS.round64] gives what binary64 arithmetic gives, also
    on ties and among the subnormal numbers. *)
Example round64_agrees_with_binary64 :
  forallb (fun '(a, b, c, d) => Binary64.agree_on a b c d) Binary64.samples
  = true /\
  Binary64.agree
    (Binary64.value (PrimFloat.div Binary64.tiny (Binary64.of_Z 2)))
    (JS.div (JS.pow2 (-1074)) 2) = true /\
  Binary64.agree
    (Binary64.value
       (PrimFloat.div (PrimFloat.mul (Binary64.of_Z 3) Binary64.tiny)
          (Binary64.of_Z 4)))
    (JS.div (JS.mul 3 (JS.pow2 (-1074))) 4) = true.
Proof. repeat split; vm_compute; reflexivity. Qed.

Example round64_third : JS.div 10 3 == 7505999378950827 # 2251799813685248.
Proof. vm_compute. reflexivity. Qed.

Example toFixed0_samples :
  JS.toFixed0 (JS.mul (JS.round64 (15 # 1000)) 100) = "2"%string /\
  JS.toFixed0 (5 # 2) = "3"%string /\
  JS.toFixed0 (- (4 # 10)) = "-0"%string /\
  JS.toFixed0 (inject_Z (10 ^ 21)) = "1e+21"%string /\
  JS.toFixed0 (inject_Z (2 ^ 70)) = "1.1805916207174113e+21"%string.
Proof. repeat split; vm_compute; reflexivity. Qed.

Example scene_label :
  existsb
    (fun c =>
       match c with
       | FillText t x y =>
           String.eqb t "person 90%" && Qeq_bool x 8 && Qeq_bool y 4
       | _ => false
       end)
    (snd (draw Scene.preds 1000 Scene.boot)) = true.
Proof. reflexivity. Qed.

Example scene_one_pixel : captureSelectedCrop Scene.one_pixel Scene.watching = None.
Proof. reflexivity. Qed.

Example scene_left :
  option_map (fun u => (bm_width (decoded u), bm_height (decoded u)))
    (captureSelectedCrop Scene.left_of_frame Scene.watching) = Some (3, 3)%Z.
Proof. reflexivity. Qed.

Example scene_mirror :
  option_map (fun u => bm_at (decoded u) 0 0)
    (captureSelectedCrop Scene.two_by_two Scene.watching)
  = Some (RGBA 3 2 0 255).
Proof. vm_compute. reflexivity. Qed.

(** * Properties *)

(** ** Rounding to the nearest double *)

Lemma pow2_pos (e : Z) : 0 < JS.pow2 e.
Proof. apply Qpower_0_lt. reflexivity. Qed.

Lemma pow2_add (a b : Z) : JS.pow2 (a + b) == JS.pow2 a * JS.pow2 b.
Proof. apply Qpower_plus. discriminate. Qed.

Lemma pow2_le (a b : Z) : (a <= b)%Z -> JS.pow2 a <= JS.pow2 b.
Proof. intros H. apply Qpower_le_compat_l; [exact H|discriminate]. Qed.

Lemma pow2_Z (n : Z) : (0 <= n)%Z -> JS.pow2 n == inject_Z (2 ^ n).
Proof. intros H. symmetry. apply (Zpower_Qpower 2 n H). Qed.

Lemma pow2_succ (a : Z) : JS.pow2 (a + 1) == 2 * JS.pow2 a.
Proof. rewrite pow2_add. change (JS.pow2 1) with 2. ring. Qed.

Lemma ilog2_lower (q : Q) : 0 < q -> JS.pow2 (JS.ilog2 q) <= q.
Proof.
  intros Hq. unfold JS.ilog2.
  set (ln := Z.log2 (Qnum q)). set (ld := Z.log2 (Z.pos (Qden q))).
  destruct (Qle_bool (JS.pow2 (ln - ld)) q) eqn:E; [apply Qle_bool_iff; exact E|].
  assert (Hn : (0 < Qnum q)%Z).
  { destruct q as [n d]. unfold Qlt in Hq. simpl in *. lia. }
  pose proof (Z.log2_spec _ Hn) as [Hn1 _]. fold ln in Hn1.
  pose proof (Z.log2_spec (Z.pos (Qden q)) eq_refl) as [_ Hd2]. fold ld in Hd2.
  assert (Hln : (0 <= ln)%Z) by apply Z.log2_nonneg.
  assert (Hld : (0 <= ld)%Z) by apply Z.log2_nonneg.
  assert (Eq : q == inject_Z (Qnum q) / inject_Z (Z.pos (Qden q))).
  { destruct q as [n d]. simpl. apply Qmake_Qdiv. }
  assert (Hdpos : 0 < inject_Z (Z.pos (Qden q))).
  { change 0 with (inject_Z 0). rewrite <- Zlt_Qlt. reflexivity. }
  rewrite Eq. apply Qle_shift_div_l; [exact Hdpos|].
  apply Qle_trans with (JS.pow2 (ln - ld - 1) * JS.pow2 (ld + 1)).
  - apply Qmult_le_l; [apply pow2_pos|].
    rewrite (pow2_Z (ld + 1)) by lia. rewrite <- Zle_Qle. lia.
  - rewrite <- pow2_add. replace (ln - ld - 1 + (ld + 1))%Z with ln by lia.
    rewrite pow2_Z by lia. rewrite <- Zle_Qle. exact Hn1.
Qed.

Lemma floor_bounds (x : Q) : inject_Z (Qfloor x) <= x /\ x < inject_Z (Qfloor x) + 1.
Proof.
  split; [apply Qfloor_le|].
  pose proof (Qlt_floor x) as H. rewrite inject_Z_plus in H. exact H.
Qed.

Lemma Qabs_lower (a : Q) : a <= Qabs a /\ - a <= Qabs a.
Proof.
  split; [apply Qle_Qabs|]. rewrite <- Qabs_opp. apply Qle_Qabs.
Qed.

Lemma Qabs_upper (a b : Q) : - b <= a -> a <= b -> Qabs a <= b.
Proof. intros. apply Qabs_Qle_condition. split; assumption. Qed.

Lemma rne_nearest (x : Q) (j : Z) :
  Qabs (inject_Z (JS.rne x) - x) <= Qabs (inject_Z j - x).
Proof.
  destruct (floor_bounds x) as [Hlo Hhi].
  pose proof (Qabs_lower (inject_Z j - x)) as [Ha Hb].
  assert (Hj : inject_Z j <= inject_Z (Qfloor x) \/ inject_Z (Qfloor x) + 1 <= inject_Z j).
  { destruct (Z_le_gt_dec j (Qfloor x)) as [L|G].
    - left. rewrite <- Zle_Qle. exact L.
    - right. change 1 with (inject_Z 1). rewrite <- inject_Z_plus, <- Zle_Qle. lia. }
  unfold JS.rne. set (f := Qfloor x) in *.
  destruct (Qle_bool (x - inject_Z f) (1 # 2)) eqn:E1.
  - apply Qle_bool_iff in E1.
    destruct (Qle_bool (1 # 2) (x - inject_Z f)) eqn:E2.
    + apply Qle_bool_iff in E2.
      destruct (Z.even f); [|rewrite inject_Z_plus; change (inject_Z 1) with 1];
        apply Qabs_upper; destruct Hj; lra.
    + apply Qabs_upper; destruct Hj; lra.
  - assert (E1' : ~ x - inject_Z f <= 1 # 2)
      by (intros L; apply Qle_bool_iff in L; congruence).
    apply Qnot_le_lt in E1'.
    rewrite inject_Z_plus; change (inject_Z 1) with 1.
    apply Qabs_upper; destruct Hj; lra.
Qed.

Lemma multiple_nearest (q u : Q) (j : Z) :
  0 < u ->
  Qabs (inject_Z (JS.rne (q / u)) * u - q) <= Qabs (inject_Z j * u - q).
Proof.
  intros Hu.
  assert (E : forall k : Z, inject_Z k * u - q == (inject_Z k - q / u) * u)
    by (intros k; field; lra).
  rewrite !E, !Qabs_Qmult.
  apply Qmult_le_compat_r; [apply rne_nearest|apply Qabs_nonneg].
Qed.

Lemma representable_small (d : Q) (m e ex : Z) :
  (Z.abs m < 2 ^ 53)%Z -> (e < ex)%Z -> d == inject_Z m * JS.pow2 e ->
  Qabs d < JS.pow2 (ex + 52).
Proof.
  intros Hm He Ed. rewrite Ed, Qabs_Qmult.
  rewrite (Qabs_pos (JS.pow2 e)) by (apply Qlt_le_weak, pow2_pos).
  apply Qlt_le_trans with (JS.pow2 53 * JS.pow2 e).
  - apply Qmult_lt_r; [apply pow2_pos|].
    rewrite (pow2_Z 53) by lia.
    assert (Ea : Qabs (inject_Z m) == inject_Z (Z.abs m)).
    { unfold Qabs, inject_Z. simpl. reflexivity. }
    rewrite Ea, <- Zlt_Qlt. exact Hm.
  - rewrite <- pow2_add. apply pow2_le. lia.
Qed.

Lemma round64_nearest (q d : Q) :
  JS.representable d -> Qabs (JS.round64 q - q) <= Qabs (d - q).
Proof.
  intros (m & e & Hm & He & Ed). unfold JS.round64.
  pose proof (Qred_correct q) as Hr. remember (Qred q) as q' eqn:Eq'. clear Eq'.
  rewrite <- Hr. clear Hr q.
  destruct (Qeq_bool q' 0) eqn:E0.
  - apply Qeq_bool_iff in E0. rewrite E0.
    apply Qabs_upper; pose proof (Qabs_nonneg (d - 0)); lra.
  - assert (Hnz : ~ q' == 0) by (intros H; apply Qeq_bool_iff in H; congruence).
    unfold JS.quantum. set (ex := Z.max (JS.ilog2 (Qabs q') - 52) (-1074)).
    pose proof (pow2_pos ex) as Hu.
    destruct (Z_le_gt_dec ex e) as [L|G].
    + assert (Ed' : d == inject_Z (m * 2 ^ (e - ex)) * JS.pow2 ex).
      { rewrite Ed, inject_Z_mult, <- pow2_Z by lia.
        rewrite <- Qmult_assoc, <- pow2_add.
        replace (e - ex + ex)%Z with e by lia. reflexivity. }
      rewrite Ed'. apply multiple_nearest. exact Hu.
    + assert (Hex : ex = (JS.ilog2 (Qabs q') - 52)%Z) by (subst ex; lia).
      assert (Habs : 0 < Qabs q').
      { pose proof (Qabs_nonneg q') as H0.
        destruct (Qlt_le_dec 0 (Qabs q')) as [H|H]; [exact H|].
        exfalso. apply Hnz.
        pose proof (Qabs_lower q') as [H1 H2]. lra. }
      pose proof (ilog2_lower _ Habs) as Hlow.
      replace (JS.ilog2 (Qabs q')) with (ex + 52)%Z in Hlow by lia.
      assert (Hsmall : Qabs d < JS.pow2 (ex + 52))
        by (apply (representable_small d m e ex); [exact Hm|lia|exact Ed]).
      pose proof (Qabs_lower d) as [Hd1 Hd2].
      assert (Es : JS.pow2 (ex + 52) == inject_Z (2 ^ 52) * JS.pow2 ex).
      { rewrite <- pow2_Z by lia. rewrite <- pow2_add. 
        replace (52 + ex)%Z with (ex + 52)%Z by lia. reflexivity. }
      destruct (Qlt_le_dec q' 0) as [Hneg|Hpos].
      * rewrite (Qabs_neg q') in Hlow by lra.
        apply Qle_trans with (Qabs (inject_Z (- 2 ^ 52) * JS.pow2 ex - q')).
        -- apply multiple_nearest. exact Hu.
        -- rewrite inject_Z_opp.
           setoid_replace (- inject_Z (2 ^ 52) * JS.pow2 ex - q')
             with (- JS.pow2 (ex + 52) - q') by (rewrite Es; ring).
           pose proof (Qabs_lower (d - q')) as [H1 H2].
           apply Qabs_upper; lra.
      * rewrite (Qabs_pos q') in Hlow by lra.
        apply Qle_trans with (Qabs (inject_Z (2 ^ 52) * JS.pow2 ex - q')).
        -- apply multiple_nearest. exact Hu.
        -- rewrite <- Es.
           pose proof (Qabs_lower (d - q')) as [H1 H2].
           apply Qabs_upper; lra.
Qed.

Lemma round64_comp (q1 q2 : Q) : q1 == q2 -> JS.round64 q1 = JS.round64 q2.
Proof. intros E. unfold JS.round64. rewrite (Qred_complete _ _ E). reflexivity. Qed.

Lemma round64_exact (d : Q) : JS.representable d -> JS.round64 d == d.
Proof.
  intros H. pose proof (round64_nearest d d H) as N.
  setoid_replace (d - d) with 0 in N by ring.
  change (Qabs 0) with 0 in N.
  pose proof (Qabs_lower (JS.round64 d - d)) as [H1 H2]. lra.
Qed.

Lemma round64_ge (d q : Q) : JS.representable d -> d <= q -> d <= JS.round64 q.
Proof.
  intros H L. pose proof (round64_nearest q d H) as N.
  rewrite (Qabs_neg (d - q)) in N by lra.
  pose proof (Qabs_lower (JS.round64 q - q)) as [H1 H2]. lra.
Qed.

Lemma round64_le (d q : Q) : JS.representable d -> q <= d -> JS.round64 q <= d.
Proof.
  intros H L. pose proof (round64_nearest q d H) as N.
  rewrite (Qabs_pos (d - q)) in N by lra.
  pose proof (Qabs_lower (JS.round64 q - q)) as [H1 H2]. lra.
Qed.

Lemma representable_Z (n : Z) : (Z.abs n < 2 ^ 53)%Z -> JS.representable (inject_Z n).
Proof.
  intros H. exists n, 0%Z. split; [exact H|]. split; [lia|].
  change (JS.pow2 0) with 1. ring.
Qed.

Lemma pow2_cancel (k : Z) : JS.pow2 k * JS.pow2 (- k) == 1.
Proof. rewrite <- pow2_add. replace (k + - k)%Z with 0%Z by lia. reflexivity. Qed.

Lemma below_one (r : Q) : JS.representable r -> r < 1 -> r <= 1 - JS.pow2 (-53).
Proof.
  intros (m & k & Hm & Hk & Er) H1.
  assert (P53 : JS.pow2 (-53) <= 1) by (change 1 with (JS.pow2 0); apply pow2_le; lia).
  destruct (Z_le_gt_dec 0 k) as [K0|K0].
  - assert (Ei : r == inject_Z (m * 2 ^ k))
      by (rewrite Er, inject_Z_mult, <- pow2_Z by lia; reflexivity).
    rewrite Ei in H1 |- *. change 1 with (inject_Z 1) in H1.
    rewrite <- Zlt_Qlt in H1.
    apply Qle_trans with 0; [|lra].
    change 0 with (inject_Z 0). rewrite <- Zle_Qle. lia.
  - destruct (Z_le_gt_dec (-53) k) as [K1|K1].
    + pose proof (pow2_pos k) as Pk. pose proof (pow2_cancel k) as Pc.
      assert (Hm' : inject_Z m < JS.pow2 (- k)).
      { apply (Qmult_lt_r _ _ (JS.pow2 k)); [exact Pk|].
        rewrite <- Er. rewrite (Qmult_comm (JS.pow2 (- k))), Pc. exact H1. }
      rewrite pow2_Z in Hm' by lia. rewrite <- Zlt_Qlt in Hm'.
      assert (Hm'' : inject_Z m <= inject_Z (2 ^ (- k)) - 1).
      { change 1 with (inject_Z 1). unfold Qminus.
        rewrite <- inject_Z_opp, <- inject_Z_plus, <- Zle_Qle. lia. }
      rewrite <- pow2_Z in Hm'' by lia.
      assert (Hr : r <= (JS.pow2 (- k) - 1) * JS.pow2 k)
        by (rewrite Er; apply Qmult_le_compat_r; [exact Hm''|lra]).
      assert (Ek : (JS.pow2 (- k) - 1) * JS.pow2 k == 1 - JS.pow2 k).
      { setoid_replace ((JS.pow2 (- k) - 1) * JS.pow2 k)
          with (JS.pow2 k * JS.pow2 (- k) - JS.pow2 k) by ring.
        rewrite Pc. reflexivity. }
      pose proof (pow2_le (-53) k K1). lra.
    + assert (Hs : Qabs r < JS.pow2 (-53 + 52))
        by (apply (representable_small r m k (-53)); [exact Hm|lia|exact Er]).
      change (JS.pow2 (-53 + 52)) with (1 # 2) in Hs.
      pose proof (Qabs_lower r) as [Ha _].
      assert (JS.pow2 (-53) <= 1 # 2)
        by (change (1 # 2) with (JS.pow2 (-1)); apply pow2_le; lia).
      lra.
Qed.

Lemma product_rounds_below (r : Q) (n : Z) :
  JS.representable r -> 0 <= r -> r < 1 -> (0 < n < 2 ^ 53)%Z ->
  0 <= JS.round64 (r * inject_Z n) /\ JS.round64 (r * inject_Z n) < inject_Z n.
Proof.
  intros Hrep H0 H1 Hn.
  assert (Hnq : 0 < inject_Z n)
    by (change 0 with (inject_Z 0); rewrite <- Zlt_Qlt; lia).
  set (x := r * inject_Z n).
  assert (Hx0 : 0 <= x) by (apply Qmult_le_0_compat; lra).
  split.
  { apply round64_ge; [apply (representable_Z 0); reflexivity|exact Hx0]. }
  pose proof (below_one r Hrep H1) as Hb.
  set (e := Z.log2 n).
  assert (He : (0 <= e)%Z) by apply Z.log2_nonneg.
  destruct (Z.log2_spec n ltac:(lia)) as [Hlo Hhi]. fold e in Hlo, Hhi.
  assert (He52 : (e <= 52)%Z).
  { destruct (Z_le_gt_dec e 52) as [L|G]; [exact L|].
    exfalso. assert (2 ^ 53 <= 2 ^ e)%Z by (apply Z.pow_le_mono_r; lia). lia. }
  destruct (Z.eq_dec n (2 ^ e)) as [Epow|Hne].
  - destruct Hrep as (m & k & Hm & Hk & Er).
    assert (Rx : JS.representable x).
    { exists m, (k + e)%Z. split; [exact Hm|]. split; [lia|].
      subst x. rewrite Er, Epow, <- pow2_Z, pow2_add by lia. ring. }
    rewrite (round64_exact x Rx). subst x.
    rewrite <- (Qmult_1_l (inject_Z n)) at 2.
    apply Qmult_lt_r; assumption.
  - set (P := JS.pow2 (-53)) in *.
    assert (F1 : x <= inject_Z n - inject_Z n * P).
    { setoid_replace (inject_Z n - inject_Z n * P) with ((1 - P) * inject_Z n)
        by ring.
      apply Qmult_le_compat_r; lra. }
    assert (F2 : JS.pow2 (e - 53) + P <= inject_Z n * P).
    { setoid_replace (JS.pow2 (e - 53) + P) with (inject_Z (2 ^ e + 1) * P).
      - apply Qmult_le_compat_r; [rewrite <- Zle_Qle; lia|].
        apply Qlt_le_weak, pow2_pos.
      - rewrite inject_Z_plus, <- pow2_Z by lia.
        replace (e - 53)%Z with (e + -53)%Z by lia. rewrite pow2_add.
        fold P. change (inject_Z 1) with 1. ring. }
    assert (F3 : JS.pow2 (e - 52) == 2 * JS.pow2 (e - 53)).
    { replace (e - 52)%Z with (e - 53 + 1)%Z by lia. apply pow2_succ. }
    pose proof (pow2_pos (-53)) as PP. fold P in PP.
    pose proof (pow2_pos (e - 53)) as PE.
    set (d1 := inject_Z n - JS.pow2 (e - 52)).
    assert (Rd : JS.representable d1).
    { exists (n * 2 ^ (52 - e) - 1)%Z, (e - 52)%Z.
      assert (Hp : (2 ^ (e + 1) * 2 ^ (52 - e) = 2 ^ 53)%Z)
        by (rewrite <- Z.pow_add_r by lia; f_equal; lia).
      assert (Hq : (0 < 2 ^ (52 - e))%Z) by (apply Z.pow_pos_nonneg; lia).
      split; [|split; [lia|]].
      - assert (n * 2 ^ (52 - e) < 2 ^ (e + 1) * 2 ^ (52 - e))%Z
          by (apply Z.mul_lt_mono_pos_r; lia).
        assert (0 < n * 2 ^ (52 - e))%Z by (apply Z.mul_pos_pos; lia).
        lia.
      - assert (Em : inject_Z (n * 2 ^ (52 - e) - 1)
                     == inject_Z n * JS.pow2 (52 - e) - 1).
        { replace (n * 2 ^ (52 - e) - 1)%Z with (n * 2 ^ (52 - e) + -1)%Z by lia.
          rewrite inject_Z_plus, inject_Z_mult, <- pow2_Z by lia.
          change (inject_Z (-1)) with (-1). ring. }
        assert (Ec : JS.pow2 (52 - e) * JS.pow2 (e - 52) == 1).
        { rewrite <- pow2_add. replace (52 - e + (e - 52))%Z with 0%Z by lia.
          reflexivity. }
        subst d1. rewrite Em.
        setoid_replace ((inject_Z n * JS.pow2 (52 - e) - 1) * JS.pow2 (e - 52))
          with (inject_Z n * (JS.pow2 (52 - e) * JS.pow2 (e - 52)) - JS.pow2 (e - 52))
          by ring.
        rewrite Ec. ring. }
    pose proof (round64_nearest x d1 Rd) as N.
    pose proof (Qabs_lower (JS.round64 x - x)) as [A1 _].
    destruct (Qlt_le_dec d1 x) as [G|L].
    + rewrite (Qabs_neg (d1 - x)) in N by lra. subst d1. lra.
    + rewrite (Qabs_pos (d1 - x)) in N by lra. subst d1.
      pose proof (pow2_pos (e - 52)). lra.
Qed.

(** ** Comparisons on numbers *)

Lemma geb_true (x y : JS.number) : JS.geb x y = true <-> y <= x.
Proof. unfold JS.geb. apply Qle_bool_iff. Qed.

Lemma ltb_true (x y : JS.number) : JS.ltb x y = true <-> x < y.
Proof.
  unfold JS.ltb. rewrite negb_true_iff. split.
  - intros E. apply Qnot_le_lt. intros L.
    apply Qle_bool_iff in L. congruence.
  - intros L. destruct (Qle_bool y x) eqn:E; [|reflexivity].
    apply Qle_bool_iff in E. exfalso. exact (Qlt_not_le _ _ L E).
Qed.

Lemma ltb_false (x y : JS.number) : JS.ltb x y = false <-> y <= x.
Proof.
  unfold JS.ltb. rewrite negb_false_iff. apply Qle_bool_iff.
Qed.

(** ** The filter step of [draw] *)

Lemma isPerson_spec (t : JS.number) (d : detection) :
  isPerson t d = true <-> is_candidate t d.
Proof.
  unfold isPerson, is_candidate.
  rewrite andb_true_iff, String.eqb_eq, geb_true. reflexivity.
Qed.

Lemma draw_people (preds : list detection) (now : JS.number) (s : state) :
  currentPeople (fst (draw preds now s)) = filter (isPerson (minScore s)) preds.
Proof. reflexivity. Qed.

Lemma filter_subseq {A : Type} (f : A -> bool) (l : list A) :
  subseq (filter f l) l.
Proof.
  induction l as [|x l IH]; simpl.
  - constructor.
  - destruct (f x); constructor; exact IH.
Qed.

Lemma subseq_filter_greatest {A : Type} (f : A -> bool) (l k : list A) :
  subseq k l -> Forall (fun x => f x = true) k -> subseq k (filter f l).
Proof.
  induction 1 as [|x k l H IH|x k l H IH]; intros F; simpl.
  - constructor.
  - destruct (f x); [apply subseq_skip|]; apply IH; exact F.
  - inversion F as [|? ? Fx Fk]; subst. rewrite Fx.
    apply subseq_keep, IH, Fk.
Qed.

(** C1. For every list of raw detections and every threshold (in particular
    every threshold in [0,1]), the candidate list that [draw] stores is a
    subsequence of the input in the detector's order; a detection is in it
    exactly when it is in the input with class "person" and a score at least
    the threshold; and every subsequence of the input made of such detections
    is a subsequence of it, so none of them is left out. *)
Theorem filter_keeps_exactly_the_candidates
    (preds : list detection) (now : JS.number) (s : state) :
  let people := currentPeople (fst (draw preds now s)) in
  subseq people preds /\
  (forall d, In d people <-> In d preds /\ is_candidate (minScore s) d) /\
  (forall k, subseq k preds -> Forall (is_candidate (minScore s)) k ->
             subseq k people).
Proof.
  rewrite draw_people. cbv zeta. split; [|split].
  - apply filter_subseq.
  - intros d. rewrite filter_In, isPerson_spec. reflexivity.
  - intros k Hk Fk. apply subseq_filter_greatest; [exact Hk|].
    eapply Forall_impl; [|exact Fk].
    intros d Hd. apply isPerson_spec. exact Hd.
Qed.

Lemma filter_candidates_witness :
  let people := currentPeople (fst (draw Scene.preds 1000 Scene.boot)) in
  people = [Scene.alice] /\
  subseq people Scene.preds /\
  (forall d, In d people <->
             In d Scene.preds /\ is_candidate (minScore Scene.boot) d) /\
  (forall k, subseq k Scene.preds ->
             Forall (is_candidate (minScore Scene.boot)) k ->
             subseq k people).
Proof.
  split; [reflexivity|].
  exact (filter_keeps_exactly_the_candidates Scene.preds 1000 Scene.boot).
Defined.

Lemma isPerson_antitone (t1 t2 : JS.number) (d : detection) :
  t1 <= t2 -> isPerson t2 d = true -> isPerson t1 d = true.
Proof.
  intros L. rewrite !isPerson_spec. intros [C S]. split; [exact C|].
  eapply Qle_trans; eassumption.
Qed.

Lemma filter_length_le {A : Type} (f g : A -> bool) (l : list A) :
  (forall x, f x = true -> g x = true) ->
  (List.length (filter f l) <= List.length (filter g l))%nat.
Proof.
  intros Hfg. induction l as [|x l IH]; simpl; [lia|].
  destruct (f x) eqn:Ef.
  - rewrite (Hfg x Ef). simpl. lia.
  - destruct (g x); simpl; lia.
Qed.

(** C7. Filtering is monotonic in the threshold: with the same raw
    detections, a threshold [t2] at least [t1] never yields more candidates
    than [t1] does. *)
Theorem filter_monotone_in_threshold
    (preds : list detection) (now1 now2 : JS.number) (s1 s2 : state) :
  minScore s1 <= minScore s2 ->
  (List.length (currentPeople (fst (draw preds now2 s2)))
   <= List.length (currentPeople (fst (draw preds now1 s1))))%nat.
Proof.
  intros L. rewrite !draw_people.
  apply filter_length_le. intros d. apply isPerson_antitone. exact L.
Qed.

Lemma filter_monotone_witness :
  minScore (confSlider_input (1 # 4) Scene.boot)
    <= minScore (confSlider_input (1 # 2) Scene.boot) /\
  (List.length
     (currentPeople
        (fst (draw Scene.preds 1000%Q (confSlider_input (1 # 2) Scene.boot))))
   <= List.length
        (currentPeople
           (fst (draw Scene.preds 1000%Q (confSlider_input (1 # 4) Scene.boot)))))%nat.
Proof.
  split.
  - vm_compute. discriminate.
  - apply (filter_monotone_in_threshold Scene.preds 1000 1000
             (confSlider_input (1 # 4) Scene.boot)
             (confSlider_input (1 # 2) Scene.boot)).
    vm_compute. discriminate.
Defined.

(** ** The highlight in [draw] *)

Lemma drawBox_highlight (m : string -> JS.number) (sx sy : JS.number)
    (chosen : bool) (p : detection) :
  existsb is_highlight (drawBox m sx sy chosen p) = chosen.
Proof.
  unfold drawBox. destruct (bbox p) as [[[x y] w] h].
  destruct chosen; reflexivity.
Qed.

Lemma forEach_highlight (m : string -> JS.number) (sx sy : JS.number)
    (ch : Z -> bool) (people : list detection) (i0 : Z) :
  existsb is_highlight
    (JS.forEach_from i0 (fun p i => drawBox m sx sy (ch i) p) people) = true
  <-> exists j, (i0 <= j < i0 + Z.of_nat (List.length people))%Z /\ ch j = true.
Proof.
  revert i0. induction people as [|p people IH]; intros i0; simpl JS.forEach_from.
  - simpl. split; [discriminate|]. intros (j & Hj & _). lia.
  - rewrite existsb_app, orb_true_iff, drawBox_highlight, IH.
    simpl List.length. split.
    + intros [H | (j & Hj & H)].
      * exists i0. split; [lia|exact H].
      * exists j. split; [lia|exact H].
    + intros (j & Hj & H).
      destruct (Z.eq_dec j i0) as [->|Hne]; [left; exact H|].
      right. exists j. split; [lia|exact H].
Qed.

Lemma forEach_plain (m : string -> JS.number) (sx sy : JS.number)
    (ch : Z -> bool) (people : list detection) (i0 : Z) :
  (forall j, (i0 <= j < i0 + Z.of_nat (List.length people))%Z -> ch j = false) ->
  JS.forEach_from i0 (fun p i => drawBox m sx sy (ch i) p) people
  = flat_map (drawBox m sx sy false) people.
Proof.
  revert i0. induction people as [|p people IH]; intros i0 H; simpl.
  - reflexivity.
  - rewrite (H i0) by (simpl List.length; lia).
    rewrite IH; [reflexivity|].
    intros j Hj. apply H. simpl List.length. lia.
Qed.

Lemma isChosen_true (s : state) (now : JS.number) (i : Z) :
  isChosen s now i = true <-> selectedIdx s = Some i /\ now < selectUntil s.
Proof.
  unfold isChosen. rewrite andb_true_iff, ltb_true.
  destruct (selectedIdx s) as [k|].
  - rewrite Z.eqb_eq. split; intros [H L]; (split; [|exact L]); congruence.
  - split; intros [H _]; discriminate.
Qed.

Lemma draw_highlight (preds : list detection) (now : JS.number) (s : state) :
  existsb is_highlight (snd (draw preds now s)) = true
  <-> exists j,
        (0 <= j < Z.of_nat (List.length (filter (isPerson (minScore s)) preds)))%Z
        /\ selectedIdx s = Some j /\ now < selectUntil s.
Proof.
  unfold draw, JS.forEach. cbn [snd existsb is_highlight orb].
  rewrite forEach_highlight. cbn [currentPeople set_currentPeople].
  split; intros (j & Hj & H); exists j; (split; [lia|]);
    apply (isChosen_true _ now j); exact H.
Qed.

Lemma draw_selection (preds : list detection) (now : JS.number) (s : state) :
  selectedIdx (fst (draw preds now s)) = selectedIdx s
  /\ selectUntil (fst (draw preds now s)) = selectUntil s.
Proof. split; reflexivity. Qed.

Lemma loop_selection (preds : list detection) (now : JS.number) (s : state) :
  selectedIdx (fst (loop preds now s)) = selectedIdx s.
Proof. unfold loop. destruct (running s); reflexivity. Qed.

Lemma loop_calls (preds : list detection) (now : JS.number) (s : state) :
  snd (loop preds now s) = if running s then snd (draw preds now s) else [].
Proof. unfold loop. destruct (running s); reflexivity. Qed.

Lemma no_selection_no_highlight (preds : list detection) (now : JS.number)
    (s : state) :
  selectedIdx s = None -> existsb is_highlight (snd (loop preds now s)) = false.
Proof.
  intros E. rewrite loop_calls. destruct (running s); [|reflexivity].
  apply not_true_is_false. rewrite draw_highlight.
  intros (j & _ & H & _). congruence.
Qed.

(** ** What [draw] shows, box by box *)

Lemma drawBox_plain (m : string -> JS.number) (sx sy : JS.number)
    (p : detection) :
  drawBox m sx sy false p = plain_box m sx sy p.
Proof.
  unfold drawBox, plain_box. destruct (bbox p) as [[[x y] w] h].
  reflexivity.
Qed.

Lemma drawBox_selected (m : string -> JS.number) (sx sy : JS.number)
    (p : detection) :
  drawBox m sx sy true p = selected_box m sx sy p.
Proof.
  unfold drawBox, selected_box. destruct (bbox p) as [[[x y] w] h].
  reflexivity.
Qed.

Lemma forEach_from_app {A B : Type} (f : A -> Z -> list B) (a b : list A)
    (i0 : Z) :
  JS.forEach_from i0 f (a ++ b)
  = JS.forEach_from i0 f a
    ++ JS.forEach_from (i0 + Z.of_nat (List.length a)) f b.
Proof.
  revert i0. induction a as [|x a IH]; intros i0.
  - cbn [app JS.forEach_from List.length Z.of_nat]. rewrite Z.add_0_r.
    reflexivity.
  - cbn [app JS.forEach_from]. rewrite IH, <- app_assoc.
    do 3 f_equal. simpl List.length. lia.
Qed.

Lemma forEach_all_plain (m : string -> JS.number) (sx sy : JS.number)
    (ch : Z -> bool) (people : list detection) (i0 : Z) :
  (forall j, (i0 <= j < i0 + Z.of_nat (List.length people))%Z -> ch j = false) ->
  JS.forEach_from i0 (fun p i => drawBox m sx sy (ch i) p) people
  = flat_map (plain_box m sx sy) people.
Proof.
  intros H. rewrite (forEach_plain m sx sy ch people i0 H).
  apply flat_map_ext. intros p. apply drawBox_plain.
Qed.

Lemma draw_all_plain (preds : list detection) (now : JS.number) (s : state) :
  (forall j, isChosen s now j = true ->
             ~ (0 <= j < Z.of_nat (List.length (filter (isPerson (minScore s)) preds)))%Z) ->
  snd (draw preds now s)
  = clear_all s
    :: flat_map (plain_box (measureText (canvas s)) (scaleX s) (scaleY s))
         (filter (isPerson (minScore s)) preds).
Proof.
  intros H. unfold draw, JS.forEach, clear_all. cbn [snd]. f_equal.
  cbn [currentPeople set_currentPeople].
  apply (forEach_all_plain _ _ _
           (isChosen (set_currentPeople (filter (isPerson (minScore s)) preds) s) now)).
  intros j Hj. apply not_true_is_false. intros E. exact (H j E Hj).
Qed.

Lemma draw_one_selected (preds : list detection) (now : JS.number) (s : state)
    (before after : list detection) (p : detection) :
  filter (isPerson (minScore s)) preds = before ++ p :: after ->
  selectedIdx s = Some (Z.of_nat (List.length before)) ->
  now < selectUntil s ->
  snd (draw preds now s)
  = clear_all s
    :: flat_map (plain_box (measureText (canvas s)) (scaleX s) (scaleY s)) before
       ++ selected_box (measureText (canvas s)) (scaleX s) (scaleY s) p
       ++ flat_map (plain_box (measureText (canvas s)) (scaleX s) (scaleY s)) after.
Proof.
  intros Hsplit Hsel Hnow. unfold draw, JS.forEach, clear_all. cbn [snd]. f_equal.
  cbn [currentPeople set_currentPeople]. rewrite Hsplit.
  set (ch := isChosen (set_currentPeople (before ++ p :: after) s) now).
  assert (Hch : forall j, ch j = true <-> j = Z.of_nat (List.length before)).
  { intros j. subst ch. rewrite isChosen_true.
    cbn [selectedIdx selectUntil set_currentPeople]. rewrite Hsel. split.
    - intros [E _]. congruence.
    - intros ->. split; [reflexivity|exact Hnow]. }
  rewrite forEach_from_app. cbn [JS.forEach_from Z.add].
  rewrite (proj2 (Hch _) eq_refl), drawBox_selected.
  rewrite !forEach_all_plain; [reflexivity| |];
    intros j Hj; apply not_true_is_false; intros E; apply Hch in E; lia.
Qed.

(** ** Picking *)

Lemma randomIndex_range (random : JS.number) (people : list detection) :
  JS.representable random -> 0 <= random -> random < 1 -> people <> [] ->
  (Z.of_nat (List.length people) < 2 ^ 53)%Z ->
  (0 <= randomIndex random people < Z.of_nat (List.length people))%Z.
Proof.
  intros Hrep H0 H1 Hne Hlen. unfold randomIndex, JS.mul.
  set (n := Z.of_nat (List.length people)) in *.
  assert (Hn : (0 < n)%Z).
  { subst n. destruct people; [congruence|simpl List.length; lia]. }
  destruct (product_rounds_below random n Hrep H0 H1 (conj Hn Hlen)) as [Hlo Hhi].
  split.
  - change (Qfloor 0 <= Qfloor (JS.round64 (random * inject_Z n)))%Z.
    apply Qfloor_resp_le. exact Hlo.
  - rewrite Zlt_Qlt.
    apply Qle_lt_trans with (JS.round64 (random * inject_Z n));
      [apply Qfloor_le|exact Hhi].
Qed.

Lemma index_in_range {A : Type} (arr : list A) (i : Z) :
  (0 <= i < Z.of_nat (List.length arr))%Z -> exists x, JS.index arr i = Some x.
Proof.
  intros H. unfold JS.index.
  destruct (Z.ltb_spec i 0) as [Hneg|_]; [lia|].
  destruct (nth_error arr (Z.to_nat i)) as [x|] eqn:E; [exists x; reflexivity|].
  apply nth_error_None in E. lia.
Qed.

(** C3. On a non-empty candidate list of size n (below 2^53, as every array
    length is), with the random source a double in [0,1), the pick stores an
    index in [0,n): the product is rounded to a double before it is
    floored, and still the handler finds a chosen candidate at the index
    and returns. *)
Theorem pick_index_in_range (random now : JS.number) (s : state) :
  JS.representable random -> 0 <= random -> random < 1 ->
  currentPeople s <> [] ->
  (Z.of_nat (List.length (currentPeople s)) < 2 ^ 53)%Z ->
  exists i chosen s',
    pick_select random now s = Returned s' /\
    selectedIdx s' = Some i /\
    (0 <= i < Z.of_nat (List.length (currentPeople s)))%Z /\
    JS.index (currentPeople s) i = Some chosen.
Proof.
  intros Hrep H0 H1 Hne Hlen.
  pose proof (randomIndex_range random (currentPeople s) Hrep H0 H1 Hne Hlen)
    as Hr.
  destruct (index_in_range (currentPeople s) _ Hr) as [chosen Hc].
  assert (E : exists s', pick_select random now s = Returned s' /\
                         selectedIdx s' = Some (randomIndex random (currentPeople s))).
  { unfold pick_select.
    cbn [currentPeople showToast setTimeout set_toast set_selectUntil
         set_selectedIdx].
    rewrite Hc. eexists. split; [reflexivity|].
    destruct (captureSelectedCrop chosen _); reflexivity. }
  destruct E as (s' & E1 & E2).
  exists (randomIndex random (currentPeople s)), chosen, s'.
  repeat split; try assumption; apply Hr.
Qed.

Lemma two_thirds_representable : JS.representable Crowd.two_thirds.
Proof.
  exists 6004799503160661%Z, (-53)%Z.
  split; [reflexivity|]. split; [discriminate|]. vm_compute. reflexivity.
Qed.

Lemma pick_index_witness :
  randomIndex Crowd.two_thirds (currentPeople Crowd.watching) = 2%Z /\
  exists i chosen s',
    pick_select Crowd.two_thirds Crowd.t_pick Crowd.watching = Returned s' /\
    selectedIdx s' = Some i /\
    (0 <= i < Z.of_nat (List.length (currentPeople Crowd.watching)))%Z /\
    JS.index (currentPeople Crowd.watching) i = Some chosen.
Proof.
  split; [vm_compute; reflexivity|].
  apply (pick_index_in_range Crowd.two_thirds Crowd.t_pick Crowd.watching).
  - exact two_thirds_representable.
  - vm_compute. discriminate.
  - vm_compute. reflexivity.
  - vm_compute. discriminate.
  - vm_compute. reflexivity.
Defined.

Lemma pick_select_selection (random now : JS.number) (s : state) :
  selectedIdx (final (pick_select random now s))
    = Some (randomIndex random (currentPeople s))
  /\ selectUntil (final (pick_select random now s)) = JS.add now 3500
  /\ minScore (final (pick_select random now s)) = minScore s
  /\ canvas (final (pick_select random now s)) = canvas s
  /\ video (final (pick_select random now s)) = video s.
Proof.
  unfold pick_select.
  destruct (JS.index _ _) as [chosen|]; cbn [final].
  - destruct (captureSelectedCrop chosen _); repeat split; reflexivity.
  - repeat split; reflexivity.
Qed.

(** C4. A pick at time T stores as expiry the double T + 3500.  From then
    on the renderer counts box i as chosen exactly when i is the stored
    index and the clock at render is strictly below the expiry.  With the
    stored index inside the candidate list, [draw] makes highlight calls
    exactly while the clock is below the expiry: before it the candidate at
    the stored index is drawn as selected (green outline 4 wide, "Selected!"
    label, outer glow) and every other one normally; at the expiry and after
    it every candidate is drawn normally. *)
Theorem highlight_active_until_expiry (random T : JS.number) (s : state) :
  let s' := final (pick_select random T s) in
  let plain := plain_box (measureText (canvas s')) (scaleX s') (scaleY s') in
  let selected := selected_box (measureText (canvas s')) (scaleX s') (scaleY s') in
  selectUntil s' = JS.add T 3500 /\
  (forall now i,
     isChosen s' now i = true
     <-> selectedIdx s' = Some i /\ now < JS.add T 3500) /\
  (forall preds now i,
     selectedIdx s' = Some i ->
     (0 <= i < Z.of_nat (List.length (currentPeople (fst (draw preds now s')))))%Z ->
     (existsb is_highlight (snd (draw preds now s')) = true
      <-> now < JS.add T 3500)) /\
  (forall preds now before p after,
     currentPeople (fst (draw preds now s')) = before ++ p :: after ->
     selectedIdx s' = Some (Z.of_nat (List.length before)) ->
     now < JS.add T 3500 ->
     snd (draw preds now s')
     = clear_all s' :: flat_map plain before ++ selected p ++ flat_map plain after) /\
  (forall preds now,
     JS.add T 3500 <= now ->
     snd (draw preds now s')
     = clear_all s' :: flat_map plain (currentPeople (fst (draw preds now s')))).
Proof.
  intros s' plain selected.
  destruct (pick_select_selection random T s) as (Hi & Hu & _).
  fold s' in Hi, Hu. split; [exact Hu|]. split; [|split; [|split]].
  - intros now i. rewrite isChosen_true, Hu. reflexivity.
  - intros preds now i Hsel Hin. rewrite draw_people in Hin.
    rewrite draw_highlight, Hu. split.
    + intros (j & _ & _ & L). exact L.
    + intros L. exists i. repeat split; try assumption; lia.
  - intros preds now before p after Hsplit Hsel L. rewrite draw_people in Hsplit.
    apply draw_one_selected; [exact Hsplit|exact Hsel|rewrite Hu; exact L].
  - intros preds now L. rewrite draw_people. apply draw_all_plain.
    intros j E _. apply isChosen_true in E. destruct E as [_ E].
    rewrite Hu in E. exact (Qlt_not_le _ _ E L).
Qed.

Lemma highlight_expiry_witness :
  selectUntil Crowd.picked = JS.add Crowd.t_pick 3500 /\
  snd (draw Crowd.preds 4500 Crowd.picked)
  = clear_all Crowd.picked
    :: flat_map
         (plain_box (measureText (canvas Crowd.picked)) (scaleX Crowd.picked)
            (scaleY Crowd.picked))
         [Scene.alice; Scene.bob]
       ++ selected_box (measureText (canvas Crowd.picked)) (scaleX Crowd.picked)
            (scaleY Crowd.picked) Crowd.carol
       ++ [] /\
  existsb is_highlight (snd (draw Crowd.preds 4500 Crowd.picked)) = true /\
  existsb is_highlight (snd (draw Crowd.preds Crowd.t_late Crowd.picked)) = false.
Proof.
  destruct (highlight_active_until_expiry Crowd.two_thirds Crowd.t_pick
              Crowd.watching) as (Hu & _ & Hon & Hsel & Hoff).
  split; [exact Hu|]. split; [|split].
  - apply (Hsel Crowd.preds 4500 [Scene.alice; Scene.bob] Crowd.carol []).
    + reflexivity.
    + vm_compute. reflexivity.
    + vm_compute. reflexivity.
  - apply (Hon Crowd.preds 4500 2%Z).
    + vm_compute. reflexivity.
    + vm_compute. split; [discriminate|reflexivity].
    + vm_compute. reflexivity.
  - assert (L : JS.add Crowd.t_pick 3500 <= Crowd.t_late)
      by (vm_compute; discriminate).
    pose proof (Hoff Crowd.preds Crowd.t_late L) as E.
    change (final (pick_select Crowd.two_thirds Crowd.t_pick Crowd.watching))
      with Crowd.picked in E.
    rewrite E. vm_compute. reflexivity.
Defined.

(** ** A stale selection *)

(** C8. When the stored index is at or beyond the end of the candidate list
    of this frame, [draw] still goes through and draws every candidate
    normally: after the clear, each candidate in turn gets the blue outline
    2 wide, the faint fill and its "person N%" label; no highlight call is
    made, the stored index stays as it is, and the turn of the loop that
    made the call asks for the next frame as usual. *)
Theorem stale_index_is_skipped
    (preds : list detection) (now : JS.number) (s : state) (k : Z) :
  selectedIdx s = Some k ->
  (Z.of_nat (List.length (filter (isPerson (minScore s)) preds)) <= k)%Z ->
  let people := filter (isPerson (minScore s)) preds in
  draw preds now s
  = (set_currentPeople people s,
     ClearRect 0 0 (inject_Z (width (canvas s))) (inject_Z (height (canvas s)))
     :: flat_map
          (plain_box (measureText (canvas s)) (scaleX s) (scaleY s))
          people) /\
  existsb is_highlight (snd (draw preds now s)) = false /\
  selectedIdx (fst (draw preds now s)) = Some k /\
  (running s = true ->
   snd (loop preds now s) = snd (draw preds now s) /\
   animationFrames (fst (loop preds now s)) = animationFrames s ++ [Loop]).
Proof.
  intros Hsel Hlen people. split; [|split; [|split]].
  - rewrite (surjective_pairing (draw preds now s)). f_equal.
    apply draw_all_plain. intros j E Hj. apply isChosen_true in E.
    destruct E as [E _]. rewrite Hsel in E. injection E as E. lia.
  - apply not_true_is_false. rewrite draw_highlight.
    intros (j & Hj & E & _). rewrite Hsel in E. injection E as E. lia.
  - exact Hsel.
  - intros Hrun. unfold loop. rewrite Hrun. split; reflexivity.
Qed.

Lemma stale_index_witness :
  selectedIdx Crowd.picked = Some 2%Z /\
  snd (draw [Scene.alice; Scene.rex] 1500 Crowd.picked)
  = ClearRect 0 0 16 12
    :: plain_box (measureText (canvas Crowd.picked)) (scaleX Crowd.picked)
         (scaleY Crowd.picked) Scene.alice /\
  In (SetStrokeStyle "#2563eb")
     (snd (draw [Scene.alice; Scene.rex] 1500 Crowd.picked)) /\
  existsb is_highlight (snd (draw [Scene.alice; Scene.rex] 1500 Crowd.picked))
  = false /\
  selectedIdx (fst (draw [Scene.alice; Scene.rex] 1500 Crowd.picked)) = Some 2%Z.
Proof.
  assert (Hsel : selectedIdx Crowd.picked = Some 2%Z)
    by (vm_compute; reflexivity).
  assert (Hlen : (Z.of_nat (List.length
                    (filter (isPerson (minScore Crowd.picked))
                       [Scene.alice; Scene.rex]))
                  <= 2)%Z) by (vm_compute; discriminate).
  destruct (stale_index_is_skipped [Scene.alice; Scene.rex] 1500 Crowd.picked 2
              Hsel Hlen)
    as (Hdraw & Hplain & Hkept & _).
  split; [exact Hsel|].
  assert (Hcalls : snd (draw [Scene.alice; Scene.rex] 1500 Crowd.picked)
                   = ClearRect 0 0 16 12
                     :: plain_box (measureText (canvas Crowd.picked))
                          (scaleX Crowd.picked) (scaleY Crowd.picked) Scene.alice).
  { rewrite Hdraw. vm_compute. reflexivity. }
  split; [exact Hcalls|]. split; [|split; [exact Hplain|exact Hkept]].
  rewrite Hcalls. unfold plain_box. cbn [bbox Scene.alice app In].
  right. right. left. reflexivity.
Defined.

(** ** A pick with nobody in view *)

(** C9. A click on the pick button while the candidate list is empty shows
    the "no students" notice, with a timer that hides it again after 2000
    ms; it selects nobody (no index is stored, the expiry, the spotlight and
    the candidate list are untouched, and no continuation of the handler is
    queued); and the loop is left running: [running] and the frame queue are
    as before, so the next turn of the loop draws and asks for another
    frame. *)
Theorem empty_pick_is_a_notice (s : state) :
  currentPeople s = [] ->
  let s' := pickBtn_click s in
  textContent (toast s') = "No students detected. Adjust camera/angle."%string /\
  toast_show (toast s') = true /\
  timers s' = timers s ++ [(2000%Z, HideToast)] /\
  toast_show (toast (final (run_callback HideToast [] 0 0 s'))) = false /\
  selectedIdx s' = None /\
  selectUntil s' = selectUntil s /\
  spotlight s' = spotlight s /\
  currentPeople s' = [] /\
  running s' = running s /\
  animationFrames s' = animationFrames s /\
  (forall preds now,
     running s = true ->
     snd (loop preds now s') = snd (draw preds now s') /\
     animationFrames (fst (loop preds now s')) = animationFrames s ++ [Loop]).
Proof.
  intros E s'. subst s'. unfold pickBtn_click. rewrite E.
  cbn [List.length Nat.eqb].
  repeat (split; [first [reflexivity | exact E]|]).
  intros preds now Hrun. unfold loop.
  cbn [running set_selectedIdx showToast setTimeout set_toast].
  rewrite Hrun. split; reflexivity.
Qed.

Lemma empty_pick_witness :
  currentPeople Scene.emptied = [] /\
  textContent (toast (pickBtn_click Scene.emptied))
    = "No students detected. Adjust camera/angle."%string /\
  running (pickBtn_click Scene.emptied) = true.
Proof.
  split; [reflexivity|].
  destruct (empty_pick_is_a_notice Scene.emptied eq_refl)
    as (Ht & _ & _ & _ & _ & _ & _ & _ & Hr & _).
  split; [exact Ht|exact Hr].
Defined.

Lemma run_frames_no_highlight (frames : list (list detection * JS.number))
    (s : state) :
  selectedIdx s = None ->
  selectedIdx (fst (run_frames frames s)) = None /\
  Forall (fun calls => existsb is_highlight calls = false)
    (snd (run_frames frames s)).
Proof.
  revert s. induction frames as [|[preds now] rest IH]; intros s E; simpl.
  - split; [exact E|constructor].
  - pose proof (no_selection_no_highlight preds now s E) as Hc.
    pose proof (loop_selection preds now s) as Hs. rewrite E in Hs.
    destruct (loop preds now s) as [s1 calls]. cbn [fst snd] in Hc, Hs.
    destruct (IH s1 Hs) as [H1 H2].
    destruct (run_frames rest s1) as [s2 later]. cbn [fst snd] in *.
    split; [exact H1|constructor; assumption].
Qed.

(** C10. A click on the pick button while the candidate list is empty sets
    the stored index to none whatever it was, so the index is changed on
    this path; and over any frames drawn afterwards no highlight call is
    made, whatever the detector reports and whatever the clock reads. *)
Theorem empty_pick_clears_selection (s : state) :
  currentPeople s = [] ->
  selectedIdx (pickBtn_click s) = None /\
  forall frames,
    selectedIdx (fst (run_frames frames (pickBtn_click s))) = None /\
    Forall (fun calls => existsb is_highlight calls = false)
      (snd (run_frames frames (pickBtn_click s))).
Proof.
  intros E.
  assert (Hn : selectedIdx (pickBtn_click s) = None).
  { unfold pickBtn_click. rewrite E. reflexivity. }
  split; [exact Hn|].
  intros frames. apply run_frames_no_highlight. exact Hn.
Qed.

Lemma empty_pick_clears_witness :
  selectedIdx Scene.emptied = Some 0%Z /\
  existsb is_highlight (snd (draw Scene.preds 3000 Scene.emptied)) = true /\
  selectedIdx (pickBtn_click Scene.emptied) = None /\
  Forall (fun calls => existsb is_highlight calls = false)
    (snd (run_frames [(Scene.preds, 3000)] (pickBtn_click Scene.emptied))).
Proof.
  split; [reflexivity|]. split; [vm_compute; reflexivity|].
  destruct (empty_pick_clears_selection Scene.emptied eq_refl) as [Hn Hf].
  split; [exact Hn|]. exact (proj2 (Hf [(Scene.preds, 3000)])).
Defined.

(** ** The offscreen canvas *)

Lemma paint_dims (b : bitmap) (w : Z * Z * pixel) :
  bm_width (paint b w) = bm_width b /\ bm_height (paint b w) = bm_height b.
Proof.
  destruct w as [[c r] v]. unfold paint, plot.
  destruct (_ && _)%bool; split; reflexivity.
Qed.

Lemma fold_paint_dims (ws : list (Z * Z * pixel)) (b : bitmap) :
  bm_width (fold_left paint ws b) = bm_width b /\
  bm_height (fold_left paint ws b) = bm_height b.
Proof.
  revert b. induction ws as [|w ws IH]; intros b; simpl.
  - split; reflexivity.
  - destruct (IH (paint b w)) as [Hw Hh].
    destruct (paint_dims b w) as [Hw' Hh']. split; congruence.
Qed.

(** A pixel that some write targets, all writes to it agreeing on the
    colour, ends up with that colour. *)
Lemma fold_paint_at (ws : list (Z * Z * pixel)) (b : bitmap)
    (c r : Z) (v : pixel) :
  (0 <= c < bm_width b)%Z -> (0 <= r < bm_height b)%Z ->
  In (c, r, v) ws ->
  (forall v', In (c, r, v') ws -> v' = v) ->
  bm_at (fold_left paint ws b) c r = v.
Proof.
  intros Hc Hr. induction ws as [|[[c' r'] v'] ws IH] using rev_ind;
    intros Hin Hsame; [contradiction|].
  rewrite fold_left_app. cbn [fold_left].
  destruct (fold_paint_dims ws b) as [Hw Hh].
  assert (Hrest : ~ (c' = c /\ r' = r) ->
                  bm_at (fold_left paint ws b) c r = v).
  { intros Hne. apply IH.
    - apply in_app_or in Hin. destruct Hin as [Hin|[Hin|[]]]; [exact Hin|].
      exfalso. apply Hne. injection Hin as -> -> _. split; reflexivity.
    - intros v'' H. apply Hsame, in_or_app. left. exact H. }
  set (b' := fold_left paint ws b) in *.
  change (paint b' (c', r', v')) with (plot b' c' r' v'). unfold plot.
  destruct (_ && _)%bool eqn:Hb.
  - cbn [bm_at].
    destruct ((c =? c') && (r =? r'))%Z%bool eqn:Heq.
    + apply andb_true_iff in Heq. destruct Heq as [E1 E2].
      apply Z.eqb_eq in E1, E2. subst c' r'.
      apply Hsame, in_or_app. right. left. reflexivity.
    + apply Hrest. intros [-> ->]. rewrite !Z.eqb_refl in Heq. discriminate.
  - apply Hrest. intros [-> ->]. rewrite Hw, Hh in Hb.
    assert (Ht : ((0 <=? c) && (c <? bm_width b) && (0 <=? r)
                  && (r <? bm_height b))%Z%bool = true).
    { rewrite !andb_true_iff, !Z.leb_le, !Z.ltb_lt. lia. }
    congruence.
Qed.

Lemma in_range (n k : Z) : In k (range n) <-> (0 <= k < n)%Z.
Proof.
  unfold range. rewrite in_map_iff. split.
  - intros (i & <- & Hi). apply in_seq in Hi. lia.
  - intros H. exists (Z.to_nat k). split; [lia|]. apply in_seq. lia.
Qed.

Lemma in_drawImage_writes (ctx : context2d) (img : video_el)
    (sx sy sw sh dx dy dw dh c r : Z) (v : pixel) :
  In (c, r, v) (drawImage_writes ctx img sx sy sw sh dx dy dw dh)
  <-> exists k l,
        (0 <= k < dw)%Z /\ (0 <= l < dh)%Z /\
        inside img (sx + k * sw / dw) (sy + l * sh / dh) = true /\
        c = device (m_a ctx) (m_e ctx) (dx + k) /\
        r = device (m_d ctx) (m_f ctx) (dy + l) /\
        v = frame img (sx + k * sw / dw) (sy + l * sh / dh).
Proof.
  unfold drawImage_writes. rewrite in_flat_map. split.
  - intros (l & Hl & H). apply in_flat_map in H. destruct H as (k & Hk & H).
    apply in_range in Hl, Hk.
    destruct (inside img _ _) eqn:Hi; [|contradiction].
    destruct H as [H|[]]. injection H as <- <- <-.
    exists k, l. repeat split; try assumption; lia.
  - intros (k & l & Hk & Hl & Hi & -> & -> & ->).
    exists l. split; [apply in_range; exact Hl|].
    apply in_flat_map. exists k. split; [apply in_range; exact Hk|].
    rewrite Hi. left. reflexivity.
Qed.

Lemma device_injective (a e x x' : Z) :
  a = 1%Z \/ a = (-1)%Z -> device a e x = device a e x' -> x = x'.
Proof. unfold device. intros [-> | ->] H; lia. Qed.

Section UnitScale.

(** An image drawn at its own size, [dw = sw] and [dh = sh], under a matrix
    that only translates and possibly mirrors. *)
Variables (ctx : context2d) (img : video_el) (sx sy sw sh dx dy : Z).
Hypothesis unit_x : m_a ctx = 1%Z \/ m_a ctx = (-1)%Z.
Hypothesis unit_y : m_d ctx = 1%Z \/ m_d ctx = (-1)%Z.

Lemma same_size_sample (n j : Z) : (0 <= j < n)%Z -> (j * n / n = j)%Z.
Proof. intros Hj. apply Z.div_mul. lia. Qed.

(** [drawImage] then copies pixel for pixel. *)
Lemma drawImage_copies (k l : Z) :
  (0 <= k < sw)%Z -> (0 <= l < sh)%Z ->
  inside img (sx + k) (sy + l) = true ->
  (0 <= device (m_a ctx) (m_e ctx) (dx + k) < bm_width (surface ctx))%Z ->
  (0 <= device (m_d ctx) (m_f ctx) (dy + l) < bm_height (surface ctx))%Z ->
  bm_at (surface (drawImage ctx img sx sy sw sh dx dy sw sh))
    (device (m_a ctx) (m_e ctx) (dx + k))
    (device (m_d ctx) (m_f ctx) (dy + l))
  = frame img (sx + k) (sy + l).
Proof.
  intros Hk Hl Hin Hc Hr. cbn [surface drawImage].
  apply fold_paint_at; [exact Hc|exact Hr| |].
  - apply in_drawImage_writes. exists k, l.
    rewrite (same_size_sample sw k Hk), (same_size_sample sh l Hl).
    repeat split; try assumption; lia.
  - intros v' H. apply in_drawImage_writes in H.
    destruct H as (k' & l' & Hk' & Hl' & _ & Ek & El & ->).
    rewrite (same_size_sample sw k' Hk'), (same_size_sample sh l' Hl').
    apply (device_injective _ _ _ _ unit_x) in Ek.
    apply (device_injective _ _ _ _ unit_y) in El.
    replace k' with k by lia. replace l' with l by lia. reflexivity.
Qed.

End UnitScale.

(** ** [captureSelectedCrop] *)

Lemma capture_none_iff (det : detection) (s : state) :
  let b := clampBox (videoWidth (video s)) (videoHeight (video s)) (bbox det) in
  captureSelectedCrop det s = None
  <-> dims_unknown (video s) \/ (cropWidth b <= 1)%Z \/ (cropHeight b <= 1)%Z.
Proof.
  unfold captureSelectedCrop, clampBox, dims_unknown.
  destruct (bbox det) as [[[x y] w] h]. cbn [cropWidth cropHeight].
  destruct (Z.eqb_spec (videoWidth (video s)) 0) as [Ew|Ew];
    [split; [intros _; left; left; exact Ew|reflexivity]|].
  destruct (Z.eqb_spec (videoHeight (video s)) 0) as [Eh|Eh];
    [split; [intros _; left; right; exact Eh|reflexivity]|].
  cbn [orb].
  destruct (Z.leb_spec (Z.min (videoWidth (video s) - Z.max 0 (Qfloor x)) (Qfloor w)) 1)
    as [Lw|Lw]; [split; [intros _; right; left; exact Lw|reflexivity]|].
  destruct (Z.leb_spec (Z.min (videoHeight (video s) - Z.max 0 (Qfloor y)) (Qfloor h)) 1)
    as [Lh|Lh]; [split; [intros _; right; right; exact Lh|reflexivity]|].
  cbn [orb]. split; [discriminate|].
  intros [[H|H]|[H|H]]; [contradiction|contradiction|lia|lia].
Qed.

Lemma capture_pixels (det : detection) (s : state) :
  let b := clampBox (videoWidth (video s)) (videoHeight (video s)) (bbox det) in
  videoWidth (video s) <> 0%Z -> videoHeight (video s) <> 0%Z ->
  (1 < cropWidth b)%Z -> (1 < cropHeight b)%Z ->
  exists u,
    captureSelectedCrop det s = Some u /\
    bm_width (decoded u) = cropWidth b /\
    bm_height (decoded u) = cropHeight b /\
    forall c r,
      (0 <= c < cropWidth b)%Z -> (0 <= r < cropHeight b)%Z ->
      bm_at (decoded u) c r
      = frame (video s)
          (startX b + source_column (facingMode s) (cropWidth b) c)
          (startY b + r).
Proof.
  unfold captureSelectedCrop, clampBox.
  destruct (bbox det) as [[[x y] w] h].
  cbn [startX startY cropWidth cropHeight].
  set (vw := videoWidth (video s)). set (vh := videoHeight (video s)).
  set (sx := Z.max 0 (Qfloor x)). set (sy := Z.max 0 (Qfloor y)).
  set (sw := Z.min (vw - sx) (Qfloor w)). set (sh := Z.min (vh - sy) (Qfloor h)).
  intros Hvw Hvh Hsw Hsh.
  assert (Bx : (0 <= sx /\ sx + sw <= vw)%Z) by (subst sx sw; lia).
  assert (By : (0 <= sy /\ sy + sh <= vh)%Z) by (subst sy sh; lia).
  destruct (Z.eqb_spec vw 0) as [?|_]; [contradiction|].
  destruct (Z.eqb_spec vh 0) as [?|_]; [contradiction|].
  destruct (Z.leb_spec sw 1) as [?|_]; [lia|].
  destruct (Z.leb_spec sh 1) as [?|_]; [lia|].
  cbn [orb]. eexists. split; [reflexivity|].
  cbn [decoded toDataURL].
  assert (Hin : forall k l, (0 <= k < sw)%Z -> (0 <= l < sh)%Z ->
                            inside (video s) (sx + k) (sy + l) = true).
  { intros k l Hk Hl. unfold inside. fold vw vh.
    rewrite !andb_true_iff, !Z.leb_le, !Z.ltb_lt. lia. }
  destruct (facingMode s); cbn [facing_eqb source_column].
  - set (ctx := scale (-1) 1 (translate sw 0
                  (getContext (set_height sh (set_width sw createCanvas))))).
    split; [apply fold_paint_dims|]. split; [apply fold_paint_dims|].
    intros c r Hc Hr.
    assert (Ec : device (m_a ctx) (m_e ctx) (0 + (sw - 1 - c)) = c)
      by (subst ctx; cbn [m_a m_d m_e m_f scale translate getContext];
          unfold device; lia).
    assert (Er : device (m_d ctx) (m_f ctx) (0 + r) = r)
      by (subst ctx; cbn [m_a m_d m_e m_f scale translate getContext];
          unfold device; lia).
    assert (Ux : m_a ctx = 1%Z \/ m_a ctx = (-1)%Z) by (right; reflexivity).
    assert (Uy : m_d ctx = 1%Z \/ m_d ctx = (-1)%Z) by (left; reflexivity).
    pose proof (drawImage_copies ctx (video s) sx sy sw sh 0 0 Ux Uy
                  (sw - 1 - c) r) as H.
    rewrite Ec, Er in H.
    apply H; try (apply Hin);
      cbn [surface bm_width bm_height ctx scale translate getContext
           set_height set_width blank createCanvas]; lia.
  - set (ctx := getContext (set_height sh (set_width sw createCanvas))).
    split; [apply fold_paint_dims|]. split; [apply fold_paint_dims|].
    intros c r Hc Hr.
    assert (Ec : device (m_a ctx) (m_e ctx) (0 + c) = c)
      by (subst ctx; cbn [m_a m_d m_e m_f scale translate getContext];
          unfold device; lia).
    assert (Er : device (m_d ctx) (m_f ctx) (0 + r) = r)
      by (subst ctx; cbn [m_a m_d m_e m_f scale translate getContext];
          unfold device; lia).
    assert (Ux : m_a ctx = 1%Z \/ m_a ctx = (-1)%Z) by (left; reflexivity).
    assert (Uy : m_d ctx = 1%Z \/ m_d ctx = (-1)%Z) by (left; reflexivity).
    pose proof (drawImage_copies ctx (video s) sx sy sw sh 0 0 Ux Uy c r) as H.
    rewrite Ec, Er in H.
    apply H; try (apply Hin);
      cbn [surface bm_width bm_height ctx getContext set_height set_width
           blank createCanvas]; lia.
Qed.

Lemma floor_at_least (n : Z) (x : JS.number) :
  inject_Z n <= x -> (n <= Qfloor x)%Z.
Proof.
  intros H. rewrite <- (Qfloor_Z n). apply Qfloor_resp_le. exact H.
Qed.

Lemma floor_sum_within (n : Z) (x w : JS.number) :
  0 <= x -> x + w <= inject_Z n ->
  (0 <= Qfloor x /\ Qfloor x + Qfloor w <= n)%Z.
Proof.
  intros H0 H. split.
  - apply (floor_at_least 0 x). exact H0.
  - rewrite Zle_Qle, inject_Z_plus.
    apply Qle_trans with (x + w); [|exact H].
    apply Qplus_le_compat; apply Qfloor_le.
Qed.

(** C2, as the code has it.  [captureSelectedCrop] is a total function: it
    answers none or an image and raises nothing.  It answers none exactly
    when a frame dimension is 0 or the clamped box is at most 1 wide or at
    most 1 high; in particular it answers none for a box that starts at or
    beyond the right edge (x >= frameWidth) or the bottom edge
    (y >= frameHeight) of the frame. *)
Theorem capture_none_exactly (det : detection) (s : state) :
  let b := clampBox (videoWidth (video s)) (videoHeight (video s)) (bbox det) in
  (captureSelectedCrop det s = None
   <-> dims_unknown (video s) \/ (cropWidth b <= 1)%Z \/ (cropHeight b <= 1)%Z)
  /\
  (beyond_far_edge (videoWidth (video s)) (videoHeight (video s)) (bbox det) ->
   captureSelectedCrop det s = None).
Proof.
  intros b. split; [apply capture_none_iff|].
  intros Hout. apply capture_none_iff. right. fold b.
  subst b. unfold beyond_far_edge, clampBox in *.
  destruct (bbox det) as [[[x y] w] h]. cbn [cropWidth cropHeight].
  destruct Hout as [H|H]; apply floor_at_least in H; [left|right]; lia.
Qed.

Lemma capture_none_witness :
  beyond_far_edge (videoWidth (video Scene.watching))
    (videoHeight (video Scene.watching)) (bbox Scene.right_of_frame) /\
  captureSelectedCrop Scene.right_of_frame Scene.watching = None /\
  captureSelectedCrop Scene.one_pixel Scene.watching = None.
Proof.
  assert (Hout : beyond_far_edge (videoWidth (video Scene.watching))
                   (videoHeight (video Scene.watching))
                   (bbox Scene.right_of_frame)).
  { left. vm_compute. discriminate. }
  split; [exact Hout|]. split.
  - exact (proj2 (capture_none_exactly Scene.right_of_frame Scene.watching) Hout).
  - apply (proj1 (capture_none_exactly Scene.one_pixel Scene.watching)).
    right. left. vm_compute. discriminate.
Defined.

(** C2, as the specification words it, fails for a box that lies wholly to
    the left of the frame: the start is clamped to column 0 but the width is
    kept, so a 3 by 3 image of the frame's corner comes back. *)
Lemma capture_outside_left_counterexample :
  fully_outside (videoWidth (video Scene.watching))
    (videoHeight (video Scene.watching)) (bbox Scene.left_of_frame) /\
  videoWidth (video Scene.watching) = 8%Z /\
  videoHeight (video Scene.watching) = 6%Z /\
  exists u,
    captureSelectedCrop Scene.left_of_frame Scene.watching = Some u /\
    bm_width (decoded u) = 3%Z /\ bm_height (decoded u) = 3%Z.
Proof.
  split; [left; vm_compute; discriminate|].
  split; [reflexivity|]. split; [reflexivity|].
  eexists. split; [reflexivity|]. split; reflexivity.
Qed.

(** C6. With the frame dimensions known and a clamped box at least 2 wide
    and 2 high, [captureSelectedCrop] answers an image whose width and
    height are those of the clamped box, rendered at source resolution:
    pixel (c, r) of the image is the frame's pixel in row startY + r and in
    the column of the clamped region that c stands for (startX + c, or
    counted from the right edge when the camera faces the user), so every
    frame pixel of the region appears once and none is scaled.  For a box
    inside the frame the clamped size is the box's own size, floored. *)
Theorem capture_has_clamped_size (det : detection) (s : state) :
  let b := clampBox (videoWidth (video s)) (videoHeight (video s)) (bbox det) in
  ~ dims_unknown (video s) ->
  (2 <= cropWidth b)%Z -> (2 <= cropHeight b)%Z ->
  (exists u,
     captureSelectedCrop det s = Some u /\
     bm_width (decoded u) = cropWidth b /\
     bm_height (decoded u) = cropHeight b /\
     forall c r,
       (0 <= c < cropWidth b)%Z -> (0 <= r < cropHeight b)%Z ->
       bm_at (decoded u) c r
       = frame (video s)
           (startX b + source_column (facingMode s) (cropWidth b) c)
           (startY b + r) /\
       (0 <= source_column (facingMode s) (cropWidth b) c < cropWidth b)%Z)
  /\
  (within_frame (videoWidth (video s)) (videoHeight (video s)) (bbox det) ->
   cropWidth b = Qfloor (snd (fst (bbox det))) /\
   cropHeight b = Qfloor (snd (bbox det))).
Proof.
  intros b Hdims Hw Hh. split.
  - destruct (capture_pixels det s) as (u & Hu & Hbw & Hbh & Hpx); fold b.
    + intros E. apply Hdims. left. exact E.
    + intros E. apply Hdims. right. exact E.
    + lia.
    + lia.
    + exists u. repeat split; try assumption.
      * apply Hpx; assumption.
      * destruct (facingMode s); cbn [source_column]; lia.
      * destruct (facingMode s); cbn [source_column]; lia.
  - subst b. unfold within_frame, clampBox.
    destruct (bbox det) as [[[x y] w] h].
    cbn [cropWidth cropHeight fst snd].
    intros (Hx & Hy & Hxw & Hyh).
    pose proof (floor_sum_within _ x w Hx Hxw).
    pose proof (floor_sum_within _ y h Hy Hyh).
    split; lia.
Qed.

Lemma capture_size_witness :
  within_frame (videoWidth (video Scene.watching))
    (videoHeight (video Scene.watching)) (bbox Scene.two_by_two) /\
  exists u,
    captureSelectedCrop Scene.two_by_two Scene.watching = Some u /\
    bm_width (decoded u) = 2%Z /\ bm_height (decoded u) = 2%Z /\
    bm_at (decoded u) 0 1 = frame (video Scene.watching) (2 + (2 - 1 - 0)) (2 + 1) /\
    bm_at (decoded u) 1 1 = frame (video Scene.watching) (2 + (2 - 1 - 1)) (2 + 1).
Proof.
  split.
  - repeat split; vm_compute; discriminate.
  - destruct (capture_has_clamped_size Scene.two_by_two Scene.watching)
      as [(u & Hu & Hw & Hh & Hpx) _].
    + intros [E|E]; vm_compute in E; discriminate E.
    + vm_compute. discriminate.
    + vm_compute. discriminate.
    + exists u. split; [exact Hu|]. split; [exact Hw|]. split; [exact Hh|].
      split.
      * apply (Hpx 0%Z 1%Z); vm_compute; split; first [discriminate|reflexivity].
      * apply (Hpx 1%Z 1%Z); vm_compute; split; first [discriminate|reflexivity].
Defined.

(** C5. The same region captured in the two orientations: the front-facing
    image is the rear-facing one mirrored left to right, so in every row the
    pixel at column c of the front image is the pixel at column
    (clampedWidth - 1 - c) of the rear image; and the rear image is the
    frame's region unmirrored. *)
Theorem front_capture_is_mirrored (det : detection) (s : state) (c r : Z) :
  let b := clampBox (videoWidth (video s)) (videoHeight (video s)) (bbox det) in
  ~ dims_unknown (video s) ->
  (1 < cropWidth b)%Z -> (1 < cropHeight b)%Z ->
  (0 <= c < cropWidth b)%Z -> (0 <= r < cropHeight b)%Z ->
  exists front rear,
    captureSelectedCrop det (set_facingMode user s) = Some front /\
    captureSelectedCrop det (set_facingMode environment s) = Some rear /\
    bm_at (decoded front) c r = bm_at (decoded rear) (cropWidth b - 1 - c) r /\
    bm_at (decoded rear) c r = frame (video s) (startX b + c) (startY b + r).
Proof.
  intros b Hdims Hw Hh Hc Hr.
  assert (Hvw : videoWidth (video s) <> 0%Z)
    by (intros E; apply Hdims; left; exact E).
  assert (Hvh : videoHeight (video s) <> 0%Z)
    by (intros E; apply Hdims; right; exact E).
  destruct (capture_pixels det (set_facingMode user s) Hvw Hvh Hw Hh)
    as (front & Hf & _ & _ & Pf).
  destruct (capture_pixels det (set_facingMode environment s) Hvw Hvh Hw Hh)
    as (rear & Hr' & _ & _ & Pr).
  cbn [video facingMode set_facingMode source_column] in Pf, Pr.
  fold b in Pf, Pr.
  exists front, rear. split; [exact Hf|]. split; [exact Hr'|]. split.
  - rewrite (Pf c r Hc Hr). rewrite Pr; [reflexivity|lia|exact Hr].
  - apply Pr; assumption.
Qed.

Lemma front_mirror_witness :
  exists front rear,
    captureSelectedCrop Scene.alice (set_facingMode user Scene.watching)
      = Some front /\
    captureSelectedCrop Scene.alice (set_facingMode environment Scene.watching)
      = Some rear /\
    bm_at (decoded front) 0 2 = bm_at (decoded rear) (3 - 1 - 0) 2 /\
    bm_at (decoded rear) 0 2 = RGBA 1 3 0 255.
Proof.
  destruct (front_capture_is_mirrored Scene.alice Scene.watching 0 2)
    as (front & rear & Hf & Hr & Hm & Hu).
  - intros [E|E]; vm_compute in E; discriminate E.
  - vm_compute. reflexivity.
  - vm_compute. reflexivity.
  - vm_compute. split; [discriminate|reflexivity].
  - vm_compute. split; [discriminate|reflexivity].
  - exists front, rear. split; [exact Hf|]. split; [exact Hr|].
    split; [exact Hm|]. rewrite Hu. reflexivity.
Defined.

(** * Further properties of the code *)

(** ** What [draw] puts on the overlay *)

Lemma forEach_count {A : Type} (g : draw_call -> bool)
    (f : A -> Z -> list draw_call) (arr : list A) (i0 : Z) :
  (forall p i, List.length (filter g (f p i)) = 1%nat) ->
  List.length (filter g (JS.forEach_from i0 f arr)) = List.length arr.
Proof.
  intros H. revert i0. induction arr as [|p arr IH]; intros i0; simpl.
  - reflexivity.
  - rewrite filter_app, length_app, H, IH. reflexivity.
Qed.

Lemma drawBox_one_label (m : string -> JS.number) (sx sy : JS.number)
    (chosen : bool) (p : detection) :
  List.length (filter is_label (drawBox m sx sy chosen p)) = 1%nat.
Proof.
  unfold drawBox. destruct (bbox p) as [[[x y] w] h].
  destruct chosen; reflexivity.
Qed.

(** X1. Every frame, [draw] writes exactly one label per candidate. *)
Theorem draw_one_label_per_candidate
    (preds : list detection) (now : JS.number) (s : state) :
  List.length (filter is_label (snd (draw preds now s)))
  = List.length (currentPeople (fst (draw preds now s))).
Proof.
  unfold draw, JS.forEach. cbn [fst snd filter is_label].
  apply forEach_count. intros p i. apply drawBox_one_label.
Qed.

Lemma drawBox_selected_label (m : string -> JS.number) (sx sy : JS.number)
    (chosen : bool) (p : detection) :
  List.length (filter (has_label "🎉 Selected!") (drawBox m sx sy chosen p))
  = if chosen then 1%nat else 0%nat.
Proof.
  unfold drawBox. destruct (bbox p) as [[[x y] w] h].
  destruct chosen; reflexivity.
Qed.

Lemma forEach_none_selected (m : string -> JS.number) (sx sy : JS.number)
    (ch : Z -> bool) (people : list detection) (i0 : Z) :
  (forall j, (i0 <= j < i0 + Z.of_nat (List.length people))%Z -> ch j = false) ->
  List.length
    (filter (has_label "🎉 Selected!")
       (JS.forEach_from i0 (fun p i => drawBox m sx sy (ch i) p) people))
  = 0%nat.
Proof.
  intros H. rewrite (forEach_plain m sx sy ch people i0 H).
  induction people as [|p people IH]; [reflexivity|].
  cbn [flat_map]. rewrite filter_app, length_app, drawBox_selected_label.
  apply IH. intros j Hj. apply H. simpl List.length. lia.
Qed.

Lemma forEach_one_selected (m : string -> JS.number) (sx sy : JS.number)
    (ch : Z -> bool) (people : list detection) (i0 : Z) :
  (forall j j', ch j = true -> ch j' = true -> j = j') ->
  (List.length
     (filter (has_label "🎉 Selected!")
        (JS.forEach_from i0 (fun p i => drawBox m sx sy (ch i) p) people))
   <= 1)%nat.
Proof.
  intros Huniq. revert i0.
  induction people as [|p people IH]; intros i0; simpl JS.forEach_from.
  - simpl. lia.
  - rewrite filter_app, length_app, drawBox_selected_label.
    destruct (ch i0) eqn:E.
    + rewrite forEach_none_selected; [lia|].
      intros j Hj. apply not_true_is_false. intros Ej.
      pose proof (Huniq _ _ E Ej). lia.
    + apply IH.
Qed.

(** X2. In one frame at most one box carries the "Selected" label, however
    many candidates there are. *)
Theorem draw_selects_at_most_one
    (preds : list detection) (now : JS.number) (s : state) :
  (List.length (filter (has_label "🎉 Selected!") (snd (draw preds now s)))
   <= 1)%nat.
Proof.
  unfold draw, JS.forEach. cbn [snd filter has_label].
  apply forEach_one_selected. intros j j' Hj Hj'.
  apply isChosen_true in Hj, Hj'. destruct Hj as [Hj _], Hj' as [Hj' _].
  congruence.
Qed.

Lemma max_zero_nonneg (x : JS.number) : 0 <= JS.max x 0.
Proof.
  unfold JS.max. destruct (Qle_bool x 0) eqn:E; [apply Qle_refl|].
  apply Qlt_le_weak, Qnot_le_lt. intros L.
  apply Qle_bool_iff in L. congruence.
Qed.

Lemma Forall_forEach {A B : Type} (P : B -> Prop) (f : A -> Z -> list B)
    (arr : list A) (i0 : Z) :
  (forall p i, Forall P (f p i)) -> Forall P (JS.forEach_from i0 f arr).
Proof.
  intros H. revert i0. induction arr as [|p arr IH]; intros i0; simpl.
  - constructor.
  - apply Forall_app. split; [apply H|apply IH].
Qed.

Lemma drawBox_label_below_top (m : string -> JS.number) (sx sy : JS.number)
    (chosen : bool) (p : detection) :
  Forall label_below_top (drawBox m sx sy chosen p).
Proof.
  unfold drawBox. destruct (bbox p) as [[[x y] w] h].
  set (ly := JS.max (JS.sub (JS.mul y sy) (JS.add 22 (JS.mul 4 2))) 0).
  assert (Hly : 4 <= JS.add ly 4).
  { apply (round64_ge 4); [exact (representable_Z 4 eq_refl)|].
    pose proof (max_zero_nonneg (JS.sub (JS.mul y sy) (JS.add 22 (JS.mul 4 2)))).
    subst ly. lra. }
  destruct chosen; cbn [app]; repeat constructor; exact Hly.
Qed.

(** X3. No label text starts above the top edge of the overlay: every
    [fillText] call is at height 4 or lower down, also for a box that
    touches or crosses the top of the frame. *)
Theorem draw_labels_stay_on_canvas
    (preds : list detection) (now : JS.number) (s : state) :
  Forall label_below_top (snd (draw preds now s)).
Proof.
  unfold draw, JS.forEach. cbn [snd]. constructor; [exact I|].
  apply Forall_forEach. intros p i. apply drawBox_label_below_top.
Qed.

Lemma forEach_covers {A B : Type} (f : A -> Z -> list B) (arr : list A)
    (i0 : Z) (p : A) :
  In p arr -> exists i, incl (f p i) (JS.forEach_from i0 f arr).
Proof.
  revert i0. induction arr as [|q arr IH]; intros i0 Hin; [contradiction|].
  simpl JS.forEach_from. destruct Hin as [->|Hin].
  - exists i0. apply incl_appl, incl_refl.
  - destruct (IH (i0 + 1)%Z Hin) as [i Hi]. exists i.
    apply incl_appr. exact Hi.
Qed.

Lemma drawBox_strokes_scaled (m : string -> JS.number) (sx sy : JS.number)
    (chosen : bool) (p : detection) (x y w h : JS.number) :
  bbox p = (x, y, w, h) ->
  In (StrokeRect (JS.mul x sx) (JS.mul y sy) (JS.mul w sx) (JS.mul h sy))
    (drawBox m sx sy chosen p).
Proof.
  intros E. unfold drawBox. rewrite E. cbn [app].
  do 3 right. left. reflexivity.
Qed.

Lemma unit_scale (c : Z) : c <> 0%Z -> JS.div (inject_Z c) (inject_Z c) == 1.
Proof.
  intros Hc. unfold JS.div.
  assert (E : inject_Z c / inject_Z c == 1).
  { field. unfold Qeq. cbn [Qnum Qden inject_Z]. lia. }
  rewrite (round64_comp _ _ E).
  apply round64_exact. exact (representable_Z 1 eq_refl).
Qed.

Lemma mul_by_unit (x k : JS.number) :
  JS.representable x -> k == 1 -> JS.mul x k == x.
Proof.
  intros Hx Hk. unfold JS.mul.
  assert (E : x * k == x) by (rewrite Hk; ring).
  rewrite (round64_comp _ _ E). apply round64_exact. exact Hx.
Qed.

Lemma orDefault_nonzero_Z (a b : Z) : b <> 0%Z -> orDefault a b <> 0%Z.
Proof. intros Hb. unfold orDefault. destruct (Z.eqb_spec a 0); congruence. Qed.

(** X4. When the overlay canvas has the size of the frame (1280 by 720
    standing in while the video reports none), every candidate's box is
    stroked at its own frame coordinates: scaling by the quotient of equal
    sizes changes no double. *)
Theorem draw_at_frame_size_keeps_boxes
    (preds : list detection) (now : JS.number) (s : state)
    (p : detection) (x y w h : JS.number) :
  In p (currentPeople (fst (draw preds now s))) ->
  bbox p = (x, y, w, h) ->
  width (canvas s) = orDefault (videoWidth (video s)) 1280 ->
  height (canvas s) = orDefault (videoHeight (video s)) 720 ->
  JS.representable x -> JS.representable y ->
  JS.representable w -> JS.representable h ->
  exists rx ry rw rh,
    In (StrokeRect rx ry rw rh) (snd (draw preds now s)) /\
    rx == x /\ ry == y /\ rw == w /\ rh == h.
Proof.
  intros Hin Hb Hcw Hch Rx Ry Rw Rh.
  assert (Sx : scaleX s == 1).
  { unfold scaleX. rewrite Hcw. apply unit_scale, orDefault_nonzero_Z.
    discriminate. }
  assert (Sy : scaleY s == 1).
  { unfold scaleY. rewrite Hch. apply unit_scale, orDefault_nonzero_Z.
    discriminate. }
  exists (JS.mul x (scaleX s)), (JS.mul y (scaleY s)),
         (JS.mul w (scaleX s)), (JS.mul h (scaleY s)).
  split.
  - unfold draw, JS.forEach in *. cbn [fst snd] in *.
    destruct (forEach_covers
                (fun q i =>
                   drawBox (measureText (canvas s)) (scaleX s) (scaleY s)
                     (isChosen
                        (set_currentPeople (filter (isPerson (minScore s)) preds) s)
                        now i) q)
                _ 0%Z p Hin) as [i Hi].
    right. apply Hi. apply drawBox_strokes_scaled. exact Hb.
  - repeat split; apply mul_by_unit; assumption.
Qed.

Lemma frame_size_boxes_witness :
  exists rx ry rw rh,
    In (StrokeRect rx ry rw rh)
       (snd (draw Scene.preds 1000 (fitCanvas 8 6 Scene.boot))) /\
    rx == 1 /\ ry == 1 /\ rw == 3 /\ rh == 4.
Proof.
  apply (draw_at_frame_size_keeps_boxes Scene.preds 1000
           (fitCanvas 8 6 Scene.boot) Scene.alice 1 1 3 4).
  - left. reflexivity.
  - reflexivity.
  - reflexivity.
  - reflexivity.
  - exact (representable_Z 1 eq_refl).
  - exact (representable_Z 1 eq_refl).
  - exact (representable_Z 3 eq_refl).
  - exact (representable_Z 4 eq_refl).
Defined.

Lemma filter_subseq_mono {A : Type} (f g : A -> bool) (l : list A) :
  (forall x, f x = true -> g x = true) -> subseq (filter f l) (filter g l).
Proof.
  intros Hfg. induction l as [|x l IH]; simpl; [constructor|].
  destruct (f x) eqn:Ef.
  - rewrite (Hfg x Ef). apply subseq_keep, IH.
  - destruct (g x); [apply subseq_skip|]; exact IH.
Qed.

(** X5. Raising the threshold only removes candidates: on the same
    detections, the candidates at the higher threshold are a subsequence, in
    the same order, of the candidates at the lower one. *)
Theorem raising_threshold_only_removes
    (preds : list detection) (now1 now2 : JS.number) (s1 s2 : state) :
  minScore s1 <= minScore s2 ->
  subseq (currentPeople (fst (draw preds now2 s2)))
         (currentPeople (fst (draw preds now1 s1))).
Proof.
  intros L. rewrite !draw_people.
  apply filter_subseq_mono. intros d. apply isPerson_antitone. exact L.
Qed.

Lemma raising_threshold_witness :
  subseq
    (currentPeople
       (fst (draw Scene.preds 1000 (confSlider_input (1 # 2) Scene.boot))))
    (currentPeople
       (fst (draw Scene.preds 1000 (confSlider_input (1 # 4) Scene.boot)))).
Proof.
  apply (raising_threshold_only_removes Scene.preds 1000 1000
           (confSlider_input (1 # 4) Scene.boot)
           (confSlider_input (1 # 2) Scene.boot)).
  vm_compute. discriminate.
Defined.

Lemma toFixed0_nonneg (x : JS.number) :
  0 <= x -> x < inject_Z (10 ^ 21) ->
  JS.toFixed0 x = JS.digits (Qfloor (x + (1 # 2))).
Proof.
  intros H0 H1. unfold JS.toFixed0, JS.toFixed0_abs.
  rewrite (proj2 (ltb_false x 0) H0).
  destruct (Qle_bool (inject_Z (10 ^ 21)) x) eqn:E; [|reflexivity].
  apply Qle_bool_iff in E. exfalso. exact (Qlt_not_le _ _ H1 E).
Qed.

(** X6. The label of an unselected candidate whose score lies in [0,1] reads
    "person N%", N being the whole number nearest to the double product of
    the score and 100 (the upper one when two are as near), between 0 and
    100. *)
Theorem unselected_label_is_rounded_percent
    (m : string -> JS.number) (sx sy : JS.number) (p : detection) :
  0 <= score p -> score p <= 1 ->
  exists n,
    (0 <= n <= 100)%Z /\
    inject_Z n - (1 # 2) <= JS.mul (score p) 100 /\
    JS.mul (score p) 100 < inject_Z n + (1 # 2) /\
    existsb
      (has_label (String.append "person " (String.append (JS.digits n) "%")))
      (drawBox m sx sy false p) = true.
Proof.
  intros H0 H1. set (pc := JS.mul (score p) 100).
  assert (Hp0 : 0 <= pc).
  { subst pc. apply (round64_ge 0); [exact (representable_Z 0 eq_refl)|lra]. }
  assert (Hp1 : pc <= 100).
  { subst pc. apply (round64_le 100); [exact (representable_Z 100 eq_refl)|lra]. }
  set (v := pc + (1 # 2)).
  exists (Qfloor v).
  pose proof (Qfloor_le v) as Hlo. pose proof (Qlt_floor v) as Hhi.
  rewrite inject_Z_plus in Hhi. change (inject_Z 1) with 1 in Hhi.
  assert (Hn0 : inject_Z (-1) < inject_Z (Qfloor v))
    by (change (inject_Z (-1)) with (-1); subst v; lra).
  assert (Hn1 : inject_Z (Qfloor v) < inject_Z 101)
    by (change (inject_Z 101) with 101; subst v; lra).
  rewrite <- Zlt_Qlt in Hn0, Hn1.
  split; [lia|]. split; [subst v; lra|]. split; [subst v; lra|].
  unfold drawBox. destruct (bbox p) as [[[x y] w] h].
  fold pc. rewrite toFixed0_nonneg; [|exact Hp0|].
  - fold v. cbn [app existsb has_label]. rewrite String.eqb_refl.
    rewrite !orb_true_r. reflexivity.
  - apply Qle_lt_trans with 100; [exact Hp1|]. reflexivity.
Qed.

Lemma rounded_percent_witness :
  JS.mul (JS.round64 (15 # 1000)) 100 == 3 # 2 /\
  exists n,
    (0 <= n <= 100)%Z /\
    inject_Z n - (1 # 2) <= JS.mul (score Crowd.faint) 100 /\
    JS.mul (score Crowd.faint) 100 < inject_Z n + (1 # 2) /\
    existsb
      (has_label (String.append "person " (String.append (JS.digits n) "%")))
      (drawBox (measureText Scene.overlay) 2 2 false Crowd.faint) = true.
Proof.
  split; [vm_compute; reflexivity|].
  apply (unselected_label_is_rounded_percent (measureText Scene.overlay) 2 2
           Crowd.faint).
  - vm_compute. discriminate.
  - vm_compute. discriminate.
Defined.

(** ** Where the crop is taken *)

(** X7. Whenever [captureSelectedCrop] answers an image, the rectangle it
    copied lies inside the frame, is at least 2 by 2, and is no larger than
    the box's floored size; the image has that rectangle's size. *)
Theorem crop_lies_inside_frame (det : detection) (s : state) (u : dataURL) :
  captureSelectedCrop det s = Some u ->
  let b := clampBox (videoWidth (video s)) (videoHeight (video s)) (bbox det) in
  (0 <= startX b)%Z /\ (startX b + cropWidth b <= videoWidth (video s))%Z /\
  (0 <= startY b)%Z /\ (startY b + cropHeight b <= videoHeight (video s))%Z /\
  bm_width (decoded u) = cropWidth b /\ bm_height (decoded u) = cropHeight b /\
  (2 <= cropWidth b <= Qfloor (snd (fst (bbox det))))%Z /\
  (2 <= cropHeight b <= Qfloor (snd (bbox det)))%Z.
Proof.
  intros Hu b.
  assert (Hnn : ~ (dims_unknown (video s) \/
                   (cropWidth b <= 1)%Z \/ (cropHeight b <= 1)%Z)).
  { intros H. apply capture_none_iff in H. congruence. }
  assert (Hvw : videoWidth (video s) <> 0%Z)
    by (intros E; apply Hnn; left; left; exact E).
  assert (Hvh : videoHeight (video s) <> 0%Z)
    by (intros E; apply Hnn; left; right; exact E).
  assert (Hw : (1 < cropWidth b)%Z) by (apply Z.nle_gt; intros L; apply Hnn; auto).
  assert (Hh : (1 < cropHeight b)%Z) by (apply Z.nle_gt; intros L; apply Hnn; auto).
  destruct (capture_pixels det s Hvw Hvh Hw Hh) as (u' & Hu' & Ebw & Ebh & _).
  fold b in Ebw, Ebh. rewrite Hu in Hu'. injection Hu' as <-.
  subst b. unfold clampBox in *. destruct (bbox det) as [[[x y] w] h].
  cbn [startX startY cropWidth cropHeight fst snd] in *.
  repeat split; try assumption; lia.
Qed.

Lemma crop_inside_witness :
  exists u,
    captureSelectedCrop Scene.bob Scene.watching = Some u /\
    bm_width (decoded u) = 2%Z /\ bm_height (decoded u) = 5%Z.
Proof.
  destruct (captureSelectedCrop Scene.bob Scene.watching) as [u|] eqn:E;
    [|vm_compute in E; discriminate E].
  exists u. split; [reflexivity|].
  destruct (crop_lies_inside_frame Scene.bob Scene.watching u E)
    as (_ & _ & _ & _ & Hw & Hh & _).
  split; [exact Hw|exact Hh].
Defined.

Lemma floor_nonpositive (x : JS.number) : x <= 0 -> Z.max 0 (Qfloor x) = 0%Z.
Proof.
  intros H. apply Qfloor_resp_le in H.
  change (Qfloor 0) with 0%Z in H. lia.
Qed.

(** X8. A box that begins left of the frame is cropped from column 0 with
    its width unchanged, and one that begins above the frame from row 0 with
    its height unchanged: the answer is the one for the same box moved to
    start on that edge. *)
Theorem crop_of_box_starting_outside
    (c : string) (sc x y w h : JS.number) (s : state) :
  (x <= 0 ->
   captureSelectedCrop {| class := c; score := sc; bbox := (x, y, w, h) |} s
   = captureSelectedCrop {| class := c; score := sc; bbox := (0, y, w, h) |} s)
  /\
  (y <= 0 ->
   captureSelectedCrop {| class := c; score := sc; bbox := (x, y, w, h) |} s
   = captureSelectedCrop {| class := c; score := sc; bbox := (x, 0, w, h) |} s).
Proof.
  split; intros H; unfold captureSelectedCrop; cbn [bbox];
    rewrite (floor_nonpositive _ H);
    change (Z.max 0 (Qfloor 0)) with 0%Z; reflexivity.
Qed.

Lemma crop_outside_witness :
  captureSelectedCrop Scene.left_of_frame Scene.watching
  = captureSelectedCrop
      {| class := "person"; score := 9 # 10; bbox := (0, 0, 3, 3) |}
      Scene.watching.
Proof.
  apply (proj1 (crop_of_box_starting_outside "person" (9 # 10) (-5) 0 3 3
                  Scene.watching)).
  vm_compute. discriminate.
Defined.

(** ** From the pick to the spotlight *)

Lemma pick_select_found (random now : JS.number) (s : state)
    (chosen : detection) :
  JS.index (currentPeople s) (randomIndex random (currentPeople s)) = Some chosen ->
  pick_select random now s
  = Returned
      (showSpotlight (captureSelectedCrop chosen s)
         "Ready to answer the next question!"
         (showToast "🎉 Selected!" 1000
            (set_selectUntil (JS.add now 3500)
               (set_selectedIdx
                  (Some (randomIndex random (currentPeople s))) s)))).
Proof.
  intros E. unfold pick_select.
  cbn [currentPeople showToast setTimeout set_toast set_selectUntil
       set_selectedIdx].
  rewrite E. reflexivity.
Qed.

Lemma index_member {A : Type} (arr : list A) (i : Z) (x : A) :
  JS.index arr i = Some x -> In x arr.
Proof.
  unfold JS.index. destruct (i <? 0)%Z; [discriminate|].
  apply nth_error_In.
Qed.

(** X9. A pick on a non-empty list (the random source a double in [0,1))
    whose chosen box can be cropped opens the spotlight on that crop, with
    the fixed caption, and shows the "Selected" toast for 1000 ms; the
    handler returns. *)
Theorem pick_opens_spotlight_on_crop (random now : JS.number) (s : state) :
  JS.representable random -> 0 <= random -> random < 1 ->
  currentPeople s <> [] ->
  (Z.of_nat (List.length (currentPeople s)) < 2 ^ 53)%Z ->
  exists chosen,
    JS.index (currentPeople s) (randomIndex random (currentPeople s))
      = Some chosen /\
    forall u,
      captureSelectedCrop chosen s = Some u ->
      exists s',
        pick_select random now s = Returned s' /\
        spotlight s'
        = {| spotImg_src := Some u;
             spotCaption := "Ready to answer the next question!";
             spot_show := true;
             aria_hidden := "false" |} /\
        toast s' = {| textContent := "🎉 Selected!"; toast_show := true |} /\
        timers s' = timers s ++ [(1000%Z, HideToast)].
Proof.
  intros Hrep H0 H1 Hne Hlen.
  destruct (index_in_range (currentPeople s) _
              (randomIndex_range random (currentPeople s) Hrep H0 H1 Hne Hlen))
    as [chosen Hc].
  exists chosen. split; [exact Hc|]. intros u Hu.
  eexists. split; [apply pick_select_found; exact Hc|].
  rewrite Hu. repeat split.
Qed.

Lemma pick_opens_spotlight_witness :
  JS.index (currentPeople Crowd.watching)
    (randomIndex Crowd.two_thirds (currentPeople Crowd.watching))
  = Some Crowd.carol /\
  exists u,
    captureSelectedCrop Crowd.carol Crowd.watching = Some u /\
    spotImg_src (spotlight Crowd.picked) = Some u /\
    spot_show (spotlight Crowd.picked) = true.
Proof.
  split; [vm_compute; reflexivity|].
  destruct (pick_opens_spotlight_on_crop Crowd.two_thirds Crowd.t_pick
              Crowd.watching) as (chosen & Hc & Hopen).
  - exact two_thirds_representable.
  - vm_compute. discriminate.
  - vm_compute. reflexivity.
  - vm_compute. discriminate.
  - vm_compute. reflexivity.
  - assert (Ec : JS.index (currentPeople Crowd.watching)
                   (randomIndex Crowd.two_thirds (currentPeople Crowd.watching))
                 = Some Crowd.carol) by (vm_compute; reflexivity).
    rewrite Ec in Hc. injection Hc as <-.
    destruct (captureSelectedCrop Crowd.carol Crowd.watching) as [u|] eqn:E;
      [|vm_compute in E; discriminate E].
    exists u. split; [reflexivity|].
    destruct (Hopen u eq_refl) as (s' & Hs' & Hspot & _).
    unfold Crowd.picked. rewrite Hs'. cbn [final]. rewrite Hspot.
    split; reflexivity.
Defined.

(** X10. A pick whose chosen box cannot be cropped (the frame has no size
    yet, or the clamped box is at most 1 wide or high) still stores the
    selection and shows the "Selected" toast, returns, and leaves the
    spotlight exactly as it was: nothing else tells the user. *)
Theorem pick_without_crop_keeps_spotlight
    (random now : JS.number) (s : state) (chosen : detection) :
  JS.index (currentPeople s) (randomIndex random (currentPeople s)) = Some chosen ->
  captureSelectedCrop chosen s = None ->
  exists s',
    pick_select random now s = Returned s' /\
    spotlight s' = spotlight s /\
    selectedIdx s' = Some (randomIndex random (currentPeople s)) /\
    selectUntil s' = JS.add now 3500 /\
    toast s' = {| textContent := "🎉 Selected!"; toast_show := true |} /\
    timers s' = timers s ++ [(1000%Z, HideToast)].
Proof.
  intros Hc Hn. eexists. split; [apply pick_select_found; exact Hc|].
  rewrite Hn. repeat split.
Qed.

Lemma pick_without_crop_witness :
  exists s',
    pick_select Crowd.two_thirds Crowd.t_pick
      (set_currentPeople [Scene.alice; Scene.bob; Scene.one_pixel] Crowd.watching)
      = Returned s' /\
    spotlight s' = spotlight Crowd.watching /\
    selectedIdx s' = Some 2%Z /\
    selectUntil s' == Crowd.t_late.
Proof.
  destruct (pick_without_crop_keeps_spotlight Crowd.two_thirds Crowd.t_pick
              (set_currentPeople [Scene.alice; Scene.bob; Scene.one_pixel]
                 Crowd.watching)
              Scene.one_pixel)
    as (s' & Hs' & Hspot & Hidx & Hexp & _).
  - vm_compute. reflexivity.
  - reflexivity.
  - exists s'. split; [exact Hs'|]. split; [exact Hspot|].
    split; [rewrite Hidx; vm_compute; reflexivity|].
    rewrite Hexp. vm_compute. reflexivity.
Defined.

Lemma round64_zero (q : Q) : q == 0 -> JS.round64 q = 0.
Proof.
  intros E. unfold JS.round64.
  rewrite (Qred_complete _ _ E). reflexivity.
Qed.

Lemma randomIndex_nil (random : JS.number) : randomIndex random [] = 0%Z.
Proof.
  unfold randomIndex, JS.mul. cbn [List.length Z.of_nat].
  rewrite (round64_zero (random * inject_Z 0)); [reflexivity|].
  change (inject_Z 0) with 0. ring.
Qed.

(** X11. When the candidate list has emptied by the end of the countdown,
    the pick still stores index 0 with a fresh expiry and shows the
    "Selected" toast, and then an exception escapes the handler: no chosen
    candidate exists, and the spotlight is not touched.  Every frame with a
    candidate before the expiry then draws its first candidate as selected
    and the others normally. *)
Theorem pick_on_emptied_list_throws (random now : JS.number) (s : state) :
  currentPeople s = [] ->
  exists s',
    pick_select random now s = Thrown s' /\
    selectedIdx s' = Some 0%Z /\
    selectUntil s' = JS.add now 3500 /\
    textContent (toast s') = "🎉 Selected!"%string /\
    spotlight s' = spotlight s /\
    forall preds now' p rest,
      filter (isPerson (minScore s)) preds = p :: rest ->
      now' < JS.add now 3500 ->
      snd (draw preds now' s')
      = clear_all s
        :: selected_box (measureText (canvas s)) (scaleX s) (scaleY s) p
           ++ flat_map (plain_box (measureText (canvas s)) (scaleX s) (scaleY s))
                rest.
Proof.
  intros E. unfold pick_select.
  cbn [currentPeople showToast setTimeout set_toast set_selectUntil
       set_selectedIdx].
  rewrite E, randomIndex_nil. cbn [JS.index Z.ltb Z.compare Z.to_nat nth_error].
  eexists. split; [reflexivity|]. repeat split.
  intros preds now' p rest Hsplit L.
  exact (draw_one_selected preds now'
           (showToast "🎉 Selected!" 1000
              (set_selectUntil (JS.add now 3500) (set_selectedIdx (Some 0%Z) s)))
           [] rest p Hsplit eq_refl L).
Qed.

Lemma pick_on_emptied_witness :
  exists s',
    pick_select Crowd.two_thirds Crowd.t_pick Scene.emptied = Thrown s' /\
    selectedIdx s' = Some 0%Z /\
    snd (draw Scene.preds 4500 s')
    = clear_all Scene.emptied
      :: selected_box (measureText (canvas Scene.emptied)) (scaleX Scene.emptied)
           (scaleY Scene.emptied) Scene.alice
         ++ [] /\
    existsb is_highlight (snd (draw Scene.preds Crowd.t_late s')) = false.
Proof.
  destruct (pick_on_emptied_list_throws Crowd.two_thirds Crowd.t_pick
              Scene.emptied eq_refl)
    as (s' & Hs' & Hidx & Hexp & _ & _ & Hnext).
  exists s'. split; [exact Hs'|]. split; [exact Hidx|]. split.
  - apply (Hnext Scene.preds 4500 Scene.alice []).
    + reflexivity.
    + vm_compute. reflexivity.
  - apply not_true_is_false. rewrite draw_highlight.
    intros (j & _ & _ & L). rewrite Hexp in L.
    vm_compute in L. discriminate L.
Defined.

(** X12. The student a pick chooses is always one of the detections of the
    latest frame drawn, of class "person" and scoring at least the
    threshold. *)
Theorem pick_chooses_from_latest_frame
    (preds : list detection) (t1 t2 random : JS.number) (s : state) :
  running s = true ->
  JS.representable random -> 0 <= random -> random < 1 ->
  currentPeople (fst (loop preds t1 s)) <> [] ->
  (Z.of_nat (List.length (currentPeople (fst (loop preds t1 s)))) < 2 ^ 53)%Z ->
  exists chosen s',
    pick_select random t2 (fst (loop preds t1 s)) = Returned s' /\
    JS.index (currentPeople s') (randomIndex random (currentPeople s'))
      = Some chosen /\
    selectedIdx s' = Some (randomIndex random (currentPeople s')) /\
    In chosen preds /\ is_candidate (minScore s) chosen.
Proof.
  intros Hrun Hrep H0 H1 Hne Hlen.
  set (s1 := fst (loop preds t1 s)) in *.
  assert (Hp : currentPeople s1 = filter (isPerson (minScore s)) preds).
  { subst s1. unfold loop. rewrite Hrun. reflexivity. }
  destruct (index_in_range (currentPeople s1) _
              (randomIndex_range random (currentPeople s1) Hrep H0 H1 Hne Hlen))
    as [chosen Hc].
  pose proof (index_member _ _ _ Hc) as Hin.
  rewrite Hp in Hin. apply filter_In in Hin. destruct Hin as [Hin Hcand].
  apply isPerson_spec in Hcand.
  exists chosen. eexists. split; [apply pick_select_found; exact Hc|].
  destruct (captureSelectedCrop chosen s1);
    cbn [showSpotlight currentPeople selectedIdx set_spotlight showToast
         setTimeout set_toast set_selectUntil set_selectedIdx];
    repeat split; first [assumption | reflexivity | apply Hcand].
Qed.

Lemma pick_latest_frame_witness :
  exists chosen s',
    pick_select Crowd.two_thirds 2000
      (fst (loop Crowd.preds 1000 (confSlider_input (1 # 4) Scene.boot)))
      = Returned s' /\
    JS.index (currentPeople s') (randomIndex Crowd.two_thirds (currentPeople s'))
      = Some chosen /\
    selectedIdx s' = Some (randomIndex Crowd.two_thirds (currentPeople s')) /\
    In chosen Crowd.preds /\
    is_candidate (minScore (confSlider_input (1 # 4) Scene.boot)) chosen.
Proof.
  apply (pick_chooses_from_latest_frame Crowd.preds 1000 2000 Crowd.two_thirds
           (confSlider_input (1 # 4) Scene.boot)).
  - reflexivity.
  - exact two_thirds_representable.
  - vm_compute. discriminate.
  - vm_compute. reflexivity.
  - vm_compute. discriminate.
  - vm_compute. reflexivity.
Defined.



(** ** The refresh loop over many frames *)

Lemma loop_untouched (preds : list detection) (now : JS.number) (s : state) :
  untouched_by_loop s (fst (loop preds now s)).
Proof.
  unfold untouched_by_loop, loop. destruct (running s) eqn:E; cbn [fst];
    repeat split; try reflexivity; exact E.
Qed.

Lemma untouched_trans (s1 s2 s3 : state) :
  untouched_by_loop s1 s2 -> untouched_by_loop s2 s3 -> untouched_by_loop s1 s3.
Proof.
  unfold untouched_by_loop.
  intros (A1 & A2 & A3 & A4 & A5 & A6 & A7 & A8 & A9 & A10)
         (B1 & B2 & B3 & B4 & B5 & B6 & B7 & B8 & B9 & B10).
  repeat split; congruence.
Qed.

Lemma run_frames_cons (preds : list detection) (now : JS.number)
    (rest : list (list detection * JS.number)) (s : state) :
  run_frames ((preds, now) :: rest) s
  = (fst (run_frames rest (fst (loop preds now s))),
     snd (loop preds now s) :: snd (run_frames rest (fst (loop preds now s)))).
Proof.
  cbn [run_frames]. destruct (loop preds now s) as [s1 calls]. cbn [fst snd].
  destruct (run_frames rest s1) as [s2 later]. reflexivity.
Qed.

Lemma run_frames_untouched (frames : list (list detection * JS.number))
    (s : state) :
  untouched_by_loop s (fst (run_frames frames s)).
Proof.
  revert s. induction frames as [|[preds now] rest IH]; intros s.
  - simpl. unfold untouched_by_loop. repeat split.
  - rewrite run_frames_cons. cbn [fst].
    eapply untouched_trans; [apply loop_untouched|apply IH].
Qed.

Lemma run_frames_app (a b : list (list detection * JS.number)) (s : state) :
  fst (run_frames (a ++ b) s) = fst (run_frames b (fst (run_frames a s))).
Proof.
  revert s. induction a as [|[preds now] a IH]; intros s.
  - reflexivity.
  - rewrite <- app_comm_cons, !run_frames_cons. cbn [fst]. apply IH.
Qed.

Lemma run_frames_requests (frames : list (list detection * JS.number))
    (s : state) :
  running s = true ->
  animationFrames (fst (run_frames frames s))
  = animationFrames s ++ repeat Loop (List.length frames).
Proof.
  revert s. induction frames as [|[preds now] rest IH]; intros s Hrun.
  - simpl. rewrite app_nil_r. reflexivity.
  - rewrite run_frames_cons. cbn [fst]. rewrite IH.
    + unfold loop. rewrite Hrun. cbn [negb fst animationFrames draw
        requestAnimationFrame set_currentPeople].
      rewrite <- app_assoc. reflexivity.
    + destruct (loop_untouched preds now s) as [H _]. congruence.
Qed.

(** X14. With [running] false the loop is inert: over any frames it draws
    nothing, asks for no frame and leaves the whole state, candidate list
    included, as it was. *)
Theorem stopped_loop_is_inert (frames : list (list detection * JS.number))
    (s : state) :
  running s = false ->
  run_frames frames s = (s, map (fun _ => []) frames).
Proof.
  intros Hstop. induction frames as [|[preds now] rest IH].
  - reflexivity.
  - rewrite run_frames_cons.
    assert (E : loop preds now s = (s, []))
      by (unfold loop; rewrite Hstop; reflexivity).
    rewrite E. cbn [fst snd]. rewrite IH. reflexivity.
Qed.

Lemma stopped_loop_witness :
  run_frames [(Scene.preds, 1000); ([Scene.rex], 1016)] Startup.halted
  = (Startup.halted, [[]; []]).
Proof.
  apply (stopped_loop_is_inert [(Scene.preds, 1000); ([Scene.rex], 1016)]
           Startup.halted).
  reflexivity.
Defined.

(** X15. While [running] is true, after any run of frames the candidate
    list is the filter of the last frame's detections alone (nothing of the
    earlier frames is kept), one frame has been requested per turn, and the
    settings, the selection, the toast, the spotlight and the timers are
    untouched. *)
Theorem loop_keeps_only_the_last_frame
    (frames : list (list detection * JS.number)) (preds : list detection)
    (now : JS.number) (s : state) :
  running s = true ->
  let s' := fst (run_frames (frames ++ [(preds, now)]) s) in
  currentPeople s' = filter (isPerson (minScore s)) preds /\
  animationFrames s'
  = animationFrames s ++ repeat Loop (S (List.length frames)) /\
  untouched_by_loop s s'.
Proof.
  intros Hrun s'. split; [|split].
  - subst s'. rewrite run_frames_app.
    destruct (run_frames_untouched frames s) as (Hr & Hm & _).
    set (s1 := fst (run_frames frames s)) in *.
    rewrite run_frames_cons. cbn [run_frames fst].
    unfold loop. rewrite Hr, Hrun. cbn [negb fst]. rewrite <- Hm. reflexivity.
  - subst s'. rewrite run_frames_requests by exact Hrun.
    rewrite length_app. cbn [List.length]. rewrite Nat.add_1_r. reflexivity.
  - apply run_frames_untouched.
Qed.

Lemma loop_last_frame_witness :
  currentPeople
    (fst (run_frames ([(Scene.preds, 1000)] ++ [([Scene.rex; Scene.bob], 1016)])
            (confSlider_input (1 # 4) Scene.boot)))
  = filter (isPerson (minScore (confSlider_input (1 # 4) Scene.boot)))
      [Scene.rex; Scene.bob].
Proof.
  apply (loop_keeps_only_the_last_frame [(Scene.preds, 1000)]
           [Scene.rex; Scene.bob] 1016 (confSlider_input (1 # 4) Scene.boot)).
  reflexivity.
Defined.

(** ** The other controls *)

(** X16. The flip button toggles the orientation: one click changes it, two
    clicks restore it, and the toast names the camera just switched to,
    "Front" for [user] and "Rear" for [environment]. *)
Theorem flip_toggles_orientation (s : state) :
  facingMode (flipBtn_click s) <> facingMode s /\
  facingMode (flipBtn_click (flipBtn_click s)) = facingMode s /\
  (textContent (toast (flipBtn_click s)) = "Switching camera: Front"%string
   <-> facingMode (flipBtn_click s) = user) /\
  (textContent (toast (flipBtn_click s)) = "Switching camera: Rear"%string
   <-> facingMode (flipBtn_click s) = environment).
Proof.
  unfold flipBtn_click.
  cbn [facingMode showToast setTimeout set_toast set_facingMode toast
       textContent].
  destruct (facingMode s); cbn [facing_eqb String.append];
    repeat split; intros; try discriminate; reflexivity.
Qed.

(** ** Start-up *)

(** X17. [main] reaches [loop()] exactly when the camera opens, one of the
    two backends (WebGL, else CPU) is set, TensorFlow is ready, the detector
    loads and the warm-up goes through; the status then reads "Detecting
    people…" and the detector is in place. *)
Theorem main_starts_loop_iff (env : platform) :
  (loop_called (main env) = true
   <-> getUserMedia env = Fulfilled /\
       (setBackend_webgl env = Fulfilled \/ setBackend_cpu env = Fulfilled) /\
       tf_ready env = Fulfilled /\ cocoSsd_load env = Fulfilled /\
       warm_up env = Fulfilled) /\
  (loop_called (main env) = true ->
   statusEl (main env) = "Detecting people…"%string /\
   model_loaded (main env) = true).
Proof.
  destruct env as [cam gl cpu rdy load warm]. unfold main.
  cbn [getUserMedia setBackend_webgl setBackend_cpu tf_ready cocoSsd_load
       warm_up].
  destruct cam, gl, cpu, rdy, load, warm;
    cbn [catch_with caught loop_called model_loaded];
    (split; [split; [intros H; try discriminate H; repeat split; auto
                    | intros (H1 & H2 & H3 & H4 & H5);
                      try discriminate; try reflexivity;
                      destruct H2; discriminate]
            | intros H; try discriminate H; split; reflexivity]).
Qed.

Lemma main_starts_loop_witness :
  loop_called (main Startup.no_webgl) = true /\
  statusEl (main Startup.no_webgl) = "Detecting people…"%string.
Proof.
  destruct (main_starts_loop_iff Startup.no_webgl) as [Hiff Hstatus].
  assert (Hc : loop_called (main Startup.no_webgl) = true).
  { apply Hiff. repeat split; try reflexivity. right. reflexivity. }
  split; [exact Hc|]. exact (proj1 (Hstatus Hc)).
Defined.

(** X18. When a start-up step fails, the status ends on "Error: " followed
    by the message of the first step that failed, [loop()] is never called,
    and the steps after the failing one leave no trace in the status. *)
Theorem main_reports_first_failure (env : platform) (m : string) :
  first_failure env = Some m ->
  statusEl (main env) = String.append "Error: " m /\
  loop_called (main env) = false /\
  ~ In "Detecting people…"%string (status_log (main env)).
Proof.
  destruct env as [cam gl cpu rdy load warm]. unfold main, first_failure.
  cbn [getUserMedia setBackend_webgl setBackend_cpu tf_ready cocoSsd_load
       warm_up].
  destruct cam, gl, cpu, rdy, load, warm;
    cbn [catch_with]; intros E; try discriminate E;
    injection E as <-; (split; [reflexivity|split; [reflexivity|]]);
    cbn [caught status_log app In];
    intros H; repeat (destruct H as [H|H]; [discriminate H|]); exact H.
Qed.

Lemma main_first_failure_witness :
  statusEl (main Startup.camera_refused) = "Error: Permission denied"%string /\
  loop_called (main Startup.camera_refused) = false.
Proof.
  destruct (main_reports_first_failure Startup.camera_refused
              "Permission denied" eq_refl) as (Hs & Hl & _).
  split; [exact Hs|exact Hl].
Defined.

(** ** Switching cameras *)

Lemma flip_accounted (known : list nat) (acquired : acquisition)
    (metadata : video_el) (iw ih : Z) (p : page) :
  streams_accounted known p ->
  match acquired with
  | Stream id =>
      ~ In id known ->
      streams_accounted (known ++ [id]) (page_of (flip acquired metadata iw ih p))
  | Refused _ =>
      streams_accounted known (page_of (flip acquired metadata iw ih p))
  end.
Proof.
  intros [Hk Hl]. destruct acquired as [id|m]; [|split; assumption].
  intros Hfresh.
  set (p' := page_of (flip (Stream id) metadata iw ih p)).
  assert (Es : srcObject p' = Some id) by reflexivity.
  assert (Et : stopped p'
               = match srcObject p with
                 | Some old => old :: stopped p
                 | None => stopped p
                 end) by reflexivity.
  split.
  - intros i. rewrite in_app_iff, Hk, Es, Et. cbn [In].
    destruct (srcObject p) as [old|]; cbn [In]; split.
    + intros [[E|H]|[E|[]]]; [injection E as ->|subst..]; auto.
    + intros [E|[E|H]]; [injection E as ->|subst|]; auto.
    + intros [[E|H]|[E|[]]]; [discriminate E|subst..]; auto.
    + intros [E|H]; [injection E as ->|]; auto.
  - intros i E. rewrite Es in E. injection E as <-. rewrite Et. intros H.
    apply Hfresh, Hk.
    destruct (srcObject p) as [old|]; [destruct H as [->|H]|]; auto.
Qed.

(** X19. However often the camera is flipped, and whichever of the attempts
    the platform refuses, the streams it handed out are all accounted for:
    the one the video element shows has not been stopped, and every other
    one has been. *)
Theorem flips_leak_no_stream
    (answers : list (acquisition * video_el * Z * Z)) (known : list nat)
    (p : page) :
  NoDup (known ++ handed_out answers) ->
  streams_accounted known p ->
  streams_accounted (known ++ handed_out answers) (flips answers p).
Proof.
  revert known p.
  induction answers as [|[[[acquired metadata] iw] ih] rest IH];
    intros known p Hnd Hacc.
  - cbn [handed_out flips]. rewrite app_nil_r. exact Hacc.
  - cbn [flips]. pose proof (flip_accounted known acquired metadata iw ih p Hacc) as Hstep.
    destruct acquired as [id|m]; cbn [handed_out] in *.
    + replace (known ++ id :: handed_out rest)
        with ((known ++ [id]) ++ handed_out rest) in *
        by (rewrite <- app_assoc; reflexivity).
      apply IH; [exact Hnd|]. apply Hstep.
      apply NoDup_app_remove_r in Hnd.
      apply NoDup_remove_2 in Hnd. rewrite app_nil_r in Hnd. exact Hnd.
    + apply IH; [exact Hnd|exact Hstep].
Qed.

Lemma flips_no_leak_witness :
  streams_accounted ([1%nat] ++ [2%nat; 3%nat])
    (flips [ (Stream 2, Scene.camera, 16%Z, 12%Z);
             (Refused "NotFoundError", Scene.camera, 16%Z, 12%Z);
             (Stream 3, Scene.camera, 16%Z, 12%Z) ]
       Startup.front_page).
Proof.
  apply (flips_leak_no_stream
           [ (Stream 2, Scene.camera, 16%Z, 12%Z);
             (Refused "NotFoundError", Scene.camera, 16%Z, 12%Z);
             (Stream 3, Scene.camera, 16%Z, 12%Z) ]
           [1%nat] Startup.front_page).
  - repeat constructor; cbn [In]; intros H;
      repeat (destruct H as [H|H]; [discriminate H|]); exact H.
  - split.
    + intros id. cbn. split.
      * intros [<-|[]]. left. reflexivity.
      * intros [E|[]]. injection E as <-. left. reflexivity.
    + intros id _ [].
Defined.

(** X20. When the platform refuses the new stream, the flip has already
    switched [facingMode] and announced the other camera; an exception
    escapes the handler, and the stream shown, the video and the canvas stay
    those of the old camera.  A crop taken from then on is the mirror image
    of the crop the same frame gave before the click. *)
Theorem refused_flip_leaves_orientation_switched
    (message : string) (metadata : video_el) (iw ih : Z) (p : page) :
  exists p',
    flip (Refused message) metadata iw ih p = Failed p' /\
    facingMode (vars p') <> facingMode (vars p) /\
    srcObject p' = srcObject p /\ stopped p' = stopped p /\
    video (vars p') = video (vars p) /\ canvas (vars p') = canvas (vars p) /\
    forall det c r,
      let b := clampBox (videoWidth (video (vars p)))
                 (videoHeight (video (vars p))) (bbox det) in
      ~ dims_unknown (video (vars p)) ->
      (1 < cropWidth b)%Z -> (1 < cropHeight b)%Z ->
      (0 <= c < cropWidth b)%Z -> (0 <= r < cropHeight b)%Z ->
      exists before after,
        captureSelectedCrop det (vars p) = Some before /\
        captureSelectedCrop det (vars p') = Some after /\
        bm_at (decoded after) c r
        = bm_at (decoded before) (cropWidth b - 1 - c) r.
Proof.
  eexists. split; [reflexivity|]. cbn [vars srcObject stopped].
  split; [|do 4 (split; [reflexivity|])].
  - unfold flipBtn_click.
    cbn [facingMode showToast setTimeout set_toast set_facingMode].
    destruct (facingMode (vars p)); cbn [facing_eqb]; discriminate.
  - intros det c r.
    set (b := clampBox (videoWidth (video (vars p)))
                (videoHeight (video (vars p))) (bbox det)).
    intros Hdims Hw Hh Hc Hr.
    assert (Hvw : videoWidth (video (vars p)) <> 0%Z)
      by (intros E; apply Hdims; left; exact E).
    assert (Hvh : videoHeight (video (vars p)) <> 0%Z)
      by (intros E; apply Hdims; right; exact E).
    destruct (capture_pixels det (vars p) Hvw Hvh Hw Hh)
      as (before & Hb & _ & _ & Pb).
    destruct (capture_pixels det (flipBtn_click (vars p)) Hvw Hvh Hw Hh)
      as (after & Ha & _ & _ & Pa).
    change (video (flipBtn_click (vars p))) with (video (vars p)) in Pa.
    fold b in Pa, Pb.
    exists before, after. split; [exact Hb|]. split; [exact Ha|].
    rewrite (Pa c r Hc Hr), Pb by lia.
    unfold flipBtn_click.
    cbn [facingMode showToast setTimeout set_toast set_facingMode].
    destruct (facingMode (vars p)); cbn [facing_eqb source_column];
      f_equal; lia.
Qed.

Lemma refused_flip_witness :
  exists p',
    flip (Refused "NotFoundError") Scene.camera 16 12 Startup.front_page
      = Failed p' /\
    facingMode (vars p') = environment /\
    srcObject p' = Some 1%nat /\
    exists before after,
      captureSelectedCrop Scene.alice (vars Startup.front_page) = Some before /\
      captureSelectedCrop Scene.alice (vars p') = Some after /\
      bm_at (decoded after) 0 0 = bm_at (decoded before) (3 - 1 - 0) 0.
Proof.
  destruct (refused_flip_leaves_orientation_switched "NotFoundError"
              Scene.camera 16 12 Startup.front_page)
    as (p' & Hp' & _ & Hsrc & _ & _ & _ & Hcrop).
  exists p'. split; [exact Hp'|].
  split; [injection Hp' as <-; reflexivity|].
  split; [exact Hsrc|].
  apply (Hcrop Scene.alice 0%Z 0%Z).
  - intros [E|E]; vm_compute in E; discriminate E.
  - vm_compute. reflexivity.
  - vm_compute. reflexivity.
  - vm_compute. split; [discriminate|reflexivity].
  - vm_compute. split; [discriminate|reflexivity].
Defined.
